(** * PowerPoint documentation extractor: a shallow embedding of
      [doc_updates.py] (class [DocumentationExtractor]) and the properties
      of its colour classifier, vocabulary extractor, section extractors,
      per-deck aggregator and per-corpus driver.

    Python values are modelled the way the program uses them:
    - a [str] is a list of Unicode code points ([N]);
    - an [int] is a [Z];
    - code that can raise runs in the [result] monad, and a [try]/[except]
      is a handler on [result];
    - lists that the program grows with [append]/[extend] are threaded
      through the loops as explicit accumulators. *)

From Stdlib Require Import String Ascii.
From Stdlib Require Import ZArith NArith List Bool Lia DecimalString.
From Stdlib Require Import Sorted Permutation.
Import ListNotations.

Set Implicit Arguments.

(* ================================================================== *)
(** * Exceptions and the [result] monad *)
(* ================================================================== *)

(** Exceptions the modelled code can meet.  All of them are subclasses of
    Python's [Exception]. *)
Inductive exn : Type :=
| AttributeError
| IndexError
| TypeError
| PackageError (msg : string).   (* raised by the document parser *)

Inductive result (A : Type) : Type :=
| Ok (a : A)
| Raise (e : exn).

Arguments Ok {A} a.
Arguments Raise {A} e.

Definition bind {A B : Type} (m : result A) (f : A -> result B) : result B :=
  match m with
  | Ok a => f a
  | Raise e => Raise e
  end.

Declare Scope result_scope.
Delimit Scope result_scope with result.
Notation "x <- m ;; k" := (bind m (fun x => k))
  (at level 61, m at next level, right associativity) : result_scope.
Open Scope result_scope.

(** [try: m except: handler]. *)
Definition try_except {A : Type} (m : result A) (handler : exn -> result A)
  : result A :=
  match m with
  | Ok a => Ok a
  | Raise e => handler e
  end.

(** Python's short-circuit [x and y] on booleans that may raise: [y] is
    only evaluated (and can only raise) when [x] is true. *)
Definition and_then (x y : result bool) : result bool :=
  b <- x ;; if b then y else Ok false.

Infix "&&&" := and_then (at level 40, left associativity) : result_scope.

(* ================================================================== *)
(** * Strings as code-point lists *)
(* ================================================================== *)

Definition char : Type := N.
Definition str : Type := list char.

(** An ASCII literal as a Python string. *)
Definition py (s : string) : str := map N_of_ascii (list_ascii_of_string s).

Definition chr_eqb (a b : char) : bool := N.eqb a b.

Fixpoint str_eqb (a b : str) : bool :=
  match a, b with
  | [], [] => true
  | x :: a', y :: b' => chr_eqb x y && str_eqb a' b'
  | _, _ => false
  end.

(** [x in xs] for a list of strings. *)
Definition str_in (x : str) (xs : list str) : bool := existsb (str_eqb x) xs.

(** [c in chars]. *)
Definition chr_in (c : char) (chars : str) : bool := existsb (chr_eqb c) chars.

(** Code points the source names explicitly. *)
Definition LF : char := 10%N.
Definition BULLET : char := 8226%N.        (* U+2022 *)
Definition MIDDLE_DOT : char := 183%N.     (* U+00B7 *)
Definition WHITE_BULLET : char := 9702%N.  (* U+25E6 *)
Definition EN_DASH : char := 8211%N.       (* U+2013 *)
Definition EM_DASH : char := 8212%N.       (* U+2014 *)
Definition COPYRIGHT : char := 169%N.      (* U+00A9 *)

(** The glyph set ['•·-*◦'] used by [lstrip] and [startswith]. *)
Definition bullet_glyphs : str :=
  [BULLET; MIDDLE_DOT] ++ py "-*" ++ [WHITE_BULLET].

(** [s.startswith(p)]. *)
Fixpoint startswith (s p : str) : bool :=
  match p with
  | [] => true
  | c :: p' =>
      match s with
      | [] => false
      | d :: s' => chr_eqb c d && startswith s' p'
      end
  end.

(** [s.startswith((p1, p2, ...))]. *)
Definition startswith_any (s : str) (ps : list str) : bool :=
  existsb (startswith s) ps.

Definition endswith (s p : str) : bool := startswith (rev s) (rev p).

(** [s.find(p)]: index of the first occurrence, [-1] when there is none. *)
Fixpoint find_from (s p : str) (i : Z) : Z :=
  if startswith s p then i
  else match s with
       | [] => (-1)%Z
       | _ :: s' => find_from s' p (i + 1)%Z
       end.

Definition find (s p : str) : Z := find_from s p 0%Z.

(** [p in s] for strings. *)
Definition contains (s p : str) : bool := (0 <=? find s p)%Z.

(** [s[i:]] for a possibly negative [i]. *)
Definition slice_from (s : str) (i : Z) : str :=
  let n := Z.of_nat (length s) in
  let j := if (i <? 0)%Z then Z.max 0 (n + i) else i in
  skipn (Z.to_nat j) s.

(** [s[:i]] for a non-negative [i]. *)
Definition slice_to (s : str) (i : nat) : str := firstn i s.

(** [s.lstrip(chars)]. *)
Fixpoint lstrip_chars (chars : str) (s : str) : str :=
  match s with
  | [] => []
  | c :: s' => if chr_in c chars then lstrip_chars chars s' else s
  end.

(** [s.split(sep)] for a one-character separator: never the empty list. *)
Fixpoint split_on (sep : char) (s : str) : list str :=
  match s with
  | [] => [[]]
  | c :: s' =>
      if chr_eqb c sep then [] :: split_on sep s'
      else match split_on sep s' with
           | [] => [[c]]
           | w :: ws => (c :: w) :: ws
           end
  end.

(** [sep.join(parts)]. *)
Fixpoint join (sep : str) (parts : list str) : str :=
  match parts with
  | [] => []
  | [p] => p
  | p :: rest => p ++ sep ++ join sep rest
  end.

(** Python truthiness of a string or list. *)
Definition nonempty {A : Type} (l : list A) : bool :=
  match l with [] => false | _ => true end.

(* ================================================================== *)
(** * The interpreter's character tables *)
(* ================================================================== *)

(** [str.isspace] on one code point; the regex class [\s] is the same
    set.  [strip], [split()] and [\s] all go through it. *)
Definition isspace (c : char) : bool :=
  ((9 <=? c) && (c <=? 13) || (28 <=? c) && (c <=? 32)
   || (c =? 133) || (c =? 160) || (c =? 5760)
   || (8192 <=? c) && (c <=? 8202)
   || (c =? 8232) || (c =? 8233) || (c =? 8239) || (c =? 8287)
   || (c =? 12288))%N.

(** The remaining Unicode tables belong to the interpreter, not to the
    program: the development is parametric in them. *)
Class CharDB : Type := {
  str_lower : str -> str;            (* [s.lower()] *)
  cp_isdecimal : char -> bool;       (* regex [\d] *)
  cp_isdigit : char -> bool;         (* [c.isdigit()] *)
  cp_isalnum : char -> bool;         (* [c.isalnum()]; [\w] adds ['_'] *)
  cp_isupper : char -> bool;         (* [c.isupper()] *)
  cp_islower_or_title : char -> bool;(* [c.islower() or c.istitle()] *)
  cp_ieq : char -> char -> bool      (* equal under [re.IGNORECASE] *)
}.

(** The tables restricted to Basic Latin: exact on strings and patterns
    made of code points below 128 (code points above are left caseless
    and outside every class). *)
Definition ascii_lower (c : char) : char :=
  if ((65 <=? c) && (c <=? 90))%N then (c + 32)%N else c.
Definition ascii_isdigit (c : char) : bool := ((48 <=? c) && (c <=? 57))%N.
Definition ascii_isupper (c : char) : bool := ((65 <=? c) && (c <=? 90))%N.
Definition ascii_islower (c : char) : bool := ((97 <=? c) && (c <=? 122))%N.

#[export] Instance BasicLatin : CharDB := {|
  str_lower := map ascii_lower;
  cp_isdecimal := ascii_isdigit;
  cp_isdigit := ascii_isdigit;
  cp_isalnum := fun c => ascii_isdigit c || ascii_isupper c || ascii_islower c;
  cp_isupper := ascii_isupper;
  cp_islower_or_title := ascii_islower;
  cp_ieq := fun a b => chr_eqb (ascii_lower a) (ascii_lower b)
|}.

(** [s.lstrip()], [s.rstrip()], [s.strip()] with no argument. *)
Fixpoint lstrip (s : str) : str :=
  match s with
  | [] => []
  | c :: s' => if isspace c then lstrip s' else s
  end.

Definition rstrip (s : str) : str := rev (lstrip (rev s)).

Definition strip (s : str) : str := rstrip (lstrip s).

(** [s.split()] with no argument: the maximal runs of non-whitespace. *)
Fixpoint split_ws_aux (s : str) (cur : str) : list str :=
  match s with
  | [] => match cur with [] => [] | _ => [rev cur] end
  | c :: s' =>
      if isspace c
      then match cur with
           | [] => split_ws_aux s' []
           | _ => rev cur :: split_ws_aux s' []
           end
      else split_ws_aux s' (c :: cur)
  end.

Definition split_ws (s : str) : list str := split_ws_aux s [].

Section StringMethods.
Context {db : CharDB}.

  (** [s.isdigit()]. *)
Definition isdigit (s : str) : bool := nonempty s && forallb cp_isdigit s.

  (** [s.isupper()]: no lower-case or title-case character and at least
      one upper-case one. *)
Definition isupper (s : str) : bool :=
    negb (existsb cp_islower_or_title s) && existsb cp_isupper s.

  (** A word character of the regex engine: [\w]. *)
Definition isword (c : char) : bool := cp_isalnum c || chr_eqb c 95%N.
End StringMethods.

(* ================================================================== *)
(** * Regular expressions: the fragment of [re] the program uses *)
(* ================================================================== *)

Inductive cls_item : Type :=
| CChar (c : char)
| CRange (lo hi : char).

Inductive regex : Type :=
| Empty
| Lit (c : char)                              (* a literal character *)
| AnyChar                                     (* [.] : anything but a newline *)
| Class (negated : bool) (items : list cls_item)   (* [[...]] and [[^...]] *)
| Digit                                       (* [\d] *)
| Space                                       (* [\s] *)
| Bol                                         (* [^] *)
| Eol                                         (* [$] *)
| WordBoundary                                (* [\b] *)
| Seq (r1 r2 : regex)
| Opt (r : regex)                             (* [r?], greedy *)
| Star (r : regex)                            (* [r*], greedy *)
| Plus (r : regex)                            (* [r+], greedy *)
| Group (r : regex).                          (* [(r)], the capture group *)

Infix "·" := Seq (at level 35, right associativity).

(** A literal string inside a pattern; also what [re.escape] denotes. *)
Fixpoint lit (s : str) : regex :=
  match s with
  | [] => Empty
  | [c] => Lit c
  | c :: s' => Seq (Lit c) (lit s')
  end.

Definition re_escape (s : str) : regex := lit s.

(** A position inside the subject string during matching. *)
Record mstate : Type := {
  m_pos : nat;                       (* index of the next character *)
  m_prev : option char;              (* the character before it *)
  m_rest : str;                      (* the characters from [m_pos] on *)
  m_group : option (nat * nat)       (* span of the capture group *)
}.

Definition advance (st : mstate) (c : char) (rest : str) : mstate :=
  {| m_pos := S (m_pos st); m_prev := Some c; m_rest := rest;
     m_group := m_group st |}.

Definition set_group (st : mstate) (span : nat * nat) : mstate :=
  {| m_pos := m_pos st; m_prev := m_prev st; m_rest := m_rest st;
     m_group := Some span |}.

Section Matcher.
Context {db : CharDB}.
Variable ignorecase : bool.

Definition lit_matches (p c : char) : bool :=
    if ignorecase then cp_ieq p c else chr_eqb p c.

Definition item_matches (c : char) (it : cls_item) : bool :=
    match it with
    | CChar p => lit_matches p c
    | CRange lo hi => (lo <=? c)%N && (c <=? hi)%N
    end.

Definition cont : Type := mstate -> option mstate.

  (** Consume one character satisfying [ok]. *)
Definition one (ok : char -> bool) (st : mstate) (k : cont) : option mstate :=
    match m_rest st with
    | c :: rest => if ok c then k (advance st c rest) else None
    | [] => None
    end.

  (** Succeed without consuming when [ok] holds. *)
Definition assert_that (ok : bool) (st : mstate) (k : cont) : option mstate :=
    if ok then k st else None.

Definition at_word_boundary (st : mstate) : bool :=
    let before := match m_prev st with Some c => isword c | None => false end in
    let after := match m_rest st with c :: _ => isword c | [] => false end in
    xorb before after.

  (** [$] without [re.MULTILINE]: the end, or just before a final newline. *)
Definition at_eol (st : mstate) : bool :=
    match m_rest st with
    | [] => true
    | [c] => chr_eqb c LF
    | _ => false
    end.

  (** Greedy iteration: take another [body] when it makes progress and the
      rest then matches, otherwise continue with [k] here.  Each round
      consumes a character, so [fuel] = remaining length + 1 never runs
      out before the subject does. *)
Fixpoint star_loop (body : mstate -> cont -> option mstate)
           (fuel : nat) (st : mstate) (k : cont) : option mstate :=
    match fuel with
    | O => k st
    | S fuel' =>
        match body st (fun st' =>
                 if Nat.eqb (m_pos st') (m_pos st) then None
                 else star_loop body fuel' st' k) with
        | Some r => Some r
        | None => k st
        end
    end.

  (** Backtracking matcher in continuation-passing style. *)
Fixpoint rmatch (r : regex) (st : mstate) (k : cont) : option mstate :=
    match r with
    | Empty => k st
    | Lit p => one (lit_matches p) st k
    | AnyChar => one (fun c => negb (chr_eqb c LF)) st k
    | Class negated items =>
        one (fun c => xorb negated (existsb (item_matches c) items)) st k
    | Digit => one cp_isdecimal st k
    | Space => one isspace st k
    | Bol => assert_that (Nat.eqb (m_pos st) 0) st k
    | Eol => assert_that (at_eol st) st k
    | WordBoundary => assert_that (at_word_boundary st) st k
    | Seq r1 r2 => rmatch r1 st (fun st' => rmatch r2 st' k)
    | Opt r1 =>
        match rmatch r1 st k with
        | Some res => Some res
        | None => k st
        end
    | Star r1 => star_loop (rmatch r1) (S (length (m_rest st))) st k
    | Plus r1 =>
        rmatch r1 st (fun st' =>
          star_loop (rmatch r1) (S (length (m_rest st'))) st' k)
    | Group r1 =>
        rmatch r1 st (fun st' => k (set_group st' (m_pos st, m_pos st')))
    end.

  (** A match object: [start()], [end()] and the span of group 1. *)
Record match_obj : Type := {
    mo_start : nat;
    mo_end : nat;
    mo_group : option (nat * nat)
  }.

Definition match_at (r : regex) (pos : nat) (prev : option char) (rest : str)
    : option match_obj :=
    match rmatch r {| m_pos := pos; m_prev := prev; m_rest := rest;
                      m_group := None |} Some with
    | Some st' => Some {| mo_start := pos; mo_end := m_pos st';
                          mo_group := m_group st' |}
    | None => None
    end.

  (** [re.match(r, text)]. *)
Definition re_match (r : regex) (text : str) : option match_obj :=
    match_at r 0 None text.

Fixpoint search_from (r : regex) (pos : nat) (prev : option char) (rest : str)
    : option match_obj :=
    match match_at r pos prev rest with
    | Some mo => Some mo
    | None =>
        match rest with
        | [] => None
        | c :: rest' => search_from r (S pos) (Some c) rest'
        end
    end.

  (** [re.search(r, text)]: the leftmost match. *)
Definition re_search (r : regex) (text : str) : option match_obj :=
    search_from r 0 None text.

  (** [match.group(1)] against the subject [text]. *)
Definition group1 (text : str) (mo : match_obj) : str :=
    match mo_group mo with
    | Some (a, b) => firstn (b - a) (skipn a text)
    | None => []
    end.

  (** [re.sub(r, repl, text)]: replace every non-overlapping match, left
      to right. *)
Fixpoint sub_loop (r : regex) (repl : str) (fuel : nat)
           (pos : nat) (prev : option char) (rest : str) : str :=
    match fuel with
    | O => rest
    | S fuel' =>
        match rmatch r {| m_pos := pos; m_prev := prev; m_rest := rest;
                          m_group := None |} Some with
        | Some st' =>
            if Nat.eqb (m_pos st') pos
            then match rest with
                 | [] => repl
                 | c :: rest' =>
                     repl ++ c :: sub_loop r repl fuel' (S pos) (Some c) rest'
                 end
            else repl ++ sub_loop r repl fuel' (m_pos st') (m_prev st') (m_rest st')
        | None =>
            match rest with
            | [] => []
            | c :: rest' => c :: sub_loop r repl fuel' (S pos) (Some c) rest'
            end
        end
    end.

Definition re_sub (r : regex) (repl : str) (text : str) : str :=
    sub_loop r repl (S (length text)) 0 None text.
End Matcher.

(** [any(re.search(pat, text, re.IGNORECASE) for pat in patterns)]. *)
Definition any_search {db : CharDB} (patterns : list regex) (text : str) : bool :=
  existsb (fun pat => match re_search true pat text with
                      | Some _ => true
                      | None => false
                      end) patterns.

(** The first pattern of the list that matches, as the trigger loops with
    [break] compute it. *)
Fixpoint first_search {db : CharDB} (patterns : list regex) (text : str)
  : option match_obj :=
  match patterns with
  | [] => None
  | pat :: rest =>
      match re_search true pat text with
      | Some mo => Some mo
      | None => first_search rest text
      end
  end.

(* ================================================================== *)
(** * The parsed slide object model *)
(* ================================================================== *)

(** What the program can be handed as a channel value: an integer, or
    some object that does not order against integers. *)
Inductive pyval : Type :=
| PyInt (z : Z)
| PyOpaque.

(** An arbitrary non-[None] argument of [is_blue_color], seen through the
    accessors the function tries: the attributes [red]/[green]/[blue] and
    [r]/[g]/[b] ([None] = no such attribute) and, for a tuple, its items. *)
Record rgb_object : Type := {
  attr_red : option pyval;
  attr_green : option pyval;
  attr_blue : option pyval;
  attr_r : option pyval;
  attr_g : option pyval;
  attr_b : option pyval;
  tuple_items : option (list pyval)
}.

Inductive rgb_arg : Type :=
| RgbNone
| RgbObj (o : rgb_object).

(** [RGBColor(r, g, b)] of the parser: a plain 3-tuple. *)
Definition RGBColor (r g b : Z) : rgb_arg :=
  RgbObj {| attr_red := None; attr_green := None; attr_blue := None;
            attr_r := None; attr_g := None; attr_b := None;
            tuple_items := Some [PyInt r; PyInt g; PyInt b] |}.

(** Truthiness of a resolved colour ([if rgb:]). *)
Definition rgb_truthy (rgb : rgb_arg) : bool :=
  match rgb with
  | RgbNone => false
  | RgbObj o => match tuple_items o with Some [] => false | _ => true end
  end.

(** A [font.color]: no colour set, an explicit RGB, or a theme index with
    its brightness. *)
Inductive color_spec : Type :=
| NoColor
| ExplicitRGB (r g b : Z)
| ThemeColor (theme_color : Z) (brightness : Z).

Record run : Type := {
  run_text : str;
  run_bold : option bool;             (* [font.bold]: None, True or False *)
  run_color : color_spec
}.

Record paragraph : Type := {
  para_text : str;                    (* [paragraph.text] *)
  para_runs : list run;
  para_color : color_spec             (* [paragraph.font.color] *)
}.

Record text_frame : Type := { tf_paragraphs : list paragraph }.

(** [text_frame.text]: the paragraphs joined by newlines. *)
Definition tf_text (tf : text_frame) : str :=
  join [LF] (map para_text (tf_paragraphs tf)).

Record shape : Type := { shape_text_frame : option text_frame }.

Record slide : Type := { slide_shapes : list shape }.

(** The twelve slots of a theme's colour scheme; a slot is [None] when
    its colour object has no [rgb] attribute. *)
Record color_scheme : Type := {
  dk1_color : option rgb_arg;  lt1_color : option rgb_arg;
  dk2_color : option rgb_arg;  lt2_color : option rgb_arg;
  accent1_color : option rgb_arg;  accent2_color : option rgb_arg;
  accent3_color : option rgb_arg;  accent4_color : option rgb_arg;
  accent5_color : option rgb_arg;  accent6_color : option rgb_arg;
  hlink_color : option rgb_arg;  folHlink_color : option rgb_arg
}.

(** An opened deck.  Reaching the theme and reaching each slide can raise
    inside the parser. *)
Record presentation : Type := {
  pres_slides : list (result slide);
  pres_clrScheme : result color_scheme
}.

(* ================================================================== *)
(** * Colour resolver and classifier *)
(* ================================================================== *)

Definition blue_color_ranges : list (Z * Z * Z * Z * Z * Z) :=
  [ (0, 0, 200, 255, 255, 255);
    (0, 100, 150, 100, 255, 255);
    (0, 150, 200, 150, 255, 255);
    (30, 144, 255, 70, 180, 255);
    (0, 191, 255, 50, 220, 255);
    (64, 224, 208, 100, 255, 230) ]%Z.

Fixpoint assoc_Z {A : Type} (k : Z) (m : list (Z * A)) : option A :=
  match m with
  | [] => None
  | (k', v) :: m' => if Z.eqb k k' then Some v else assoc_Z k m'
  end.

Definition theme_color_map (cs : color_scheme) : list (Z * option rgb_arg) :=
  [ (1, dk1_color cs); (2, lt1_color cs); (3, dk2_color cs); (4, lt2_color cs);
    (5, accent1_color cs); (6, accent2_color cs); (7, accent3_color cs);
    (8, accent4_color cs); (9, accent5_color cs); (10, accent6_color cs);
    (11, hlink_color cs); (12, folHlink_color cs) ]%Z.

(** [resolve_theme_color_to_rgb]; the brightness is accepted and not used. *)
Definition resolve_theme_color_to_rgb (pres : presentation)
           (theme_color_idx : Z) (brightness : Z) : rgb_arg :=
  match try_except
          (cs <- pres_clrScheme pres ;;
           match assoc_Z theme_color_idx (theme_color_map cs) with
           | Some (Some rgb) => Ok (Some rgb)
           | _ => Ok None
           end)
          (fun _ => Ok None) with
  | Ok (Some rgb) => rgb
  | _ => RgbNone
  end.

(** One layer of [get_effective_color]: [Some rgb] when the layer returns. *)
Definition color_layer (pres : presentation) (c : color_spec) : option rgb_arg :=
  match c with
  | ExplicitRGB r g b => Some (RGBColor r g b)
  | ThemeColor idx brightness =>
      if Z.eqb idx 0 then None
      else let rgb := resolve_theme_color_to_rgb pres idx brightness in
           if rgb_truthy rgb then Some rgb else None
  | NoColor => None
  end.

Definition get_effective_color (r : run) (p : paragraph) (pres : presentation)
  : rgb_arg :=
  match color_layer pres (run_color r) with
  | Some rgb => rgb
  | None =>
      match color_layer pres (para_color p) with
      | Some rgb => rgb
      | None => resolve_theme_color_to_rgb pres 1 0
      end
  end.

(** [rgb.red if hasattr(rgb, 'red') else
     (rgb[i] if isinstance(rgb, tuple) else rgb.r)]. *)
Definition channel (o : rgb_object) (long : option pyval) (i : nat)
           (short : option pyval) : result pyval :=
  match long with
  | Some v => Ok v
  | None =>
      match tuple_items o with
      | Some items =>
          match nth_error items i with
          | Some v => Ok v
          | None => Raise IndexError
          end
      | None =>
          match short with
          | Some v => Ok v
          | None => Raise AttributeError
          end
      end
  end.

(** Integer view of a channel inside a comparison or a subtraction. *)
Definition as_int (v : pyval) : result Z :=
  match v with
  | PyInt z => Ok z
  | PyOpaque => Raise TypeError
  end.

(** [lo <= v <= hi], chained. *)
Definition between (lo : Z) (v : pyval) (hi : Z) : result bool :=
  z <- as_int v ;;
  if (lo <=? z)%Z then Ok (z <=? hi)%Z else Ok false.

(** [v > n]. *)
Definition gt_int (v : pyval) (n : Z) : result bool :=
  z <- as_int v ;; Ok (n <? z)%Z.

(** [v < n]. *)
Definition lt_int (v : pyval) (n : Z) : result bool :=
  z <- as_int v ;; Ok (z <? n)%Z.

(** [a > b + n]. *)
Definition gt_plus (a b : pyval) (n : Z) : result bool :=
  x <- as_int a ;; y <- as_int b ;; Ok (y + n <? x)%Z.

(** [abs(a - b) < n]. *)
Definition abs_diff_lt (a b : pyval) (n : Z) : result bool :=
  x <- as_int a ;; y <- as_int b ;; Ok (Z.abs (x - y) <? n)%Z.

(** The loop over [blue_color_ranges]: [true] when it returns [True]. *)
Fixpoint in_some_range (ranges : list (Z * Z * Z * Z * Z * Z)) (r g b : pyval)
  : result bool :=
  match ranges with
  | [] => Ok false
  | (r_min, g_min, b_min, r_max, g_max, b_max) :: rest =>
      hit <- between r_min r r_max &&& between g_min g g_max
               &&& between b_min b b_max ;;
      if hit then Ok true else in_some_range rest r g b
  end.

(** The body of the [try] block of [is_blue_color]: [Some v] when it
    executes [return v], [None] when control falls out of the block. *)
Definition is_blue_color_try (o : rgb_object) : result (option bool) :=
  r <- channel o (attr_red o) 0 (attr_r o) ;;
  g <- channel o (attr_green o) 1 (attr_g o) ;;
  b <- channel o (attr_blue o) 2 (attr_b o) ;;
  boxed <- in_some_range blue_color_ranges r g b ;;
  if boxed then Ok (Some true) else
  white <- gt_int r 200 &&& gt_int g 200 &&& gt_int b 200 ;;
  if white then Ok (Some false) else
  gray <- abs_diff_lt r g 10 &&& abs_diff_lt g b 10 &&& abs_diff_lt r b 10 ;;
  if gray then Ok (Some false) else
  strong <- gt_plus b r 50 &&& gt_plus b g 50 &&& gt_int b 120 ;;
  if strong then Ok (Some true) else
  turquoise <- gt_int g 150 &&& gt_int b 150 &&& lt_int r 80 ;;
  if turquoise then Ok (Some true) else
  medium <- gt_int b 180 &&& gt_plus b r 30 &&& gt_plus b g 30 ;;
  if medium then Ok (Some true) else Ok None.

Definition is_blue_color (rgb : rgb_arg) : result bool :=
  match rgb with
  | RgbNone => Ok false
  | RgbObj o =>
      outcome <- try_except (is_blue_color_try o) (fun _ => Ok None) ;;
      match outcome with
      | Some v => Ok v
      | None => Ok false
      end
  end.

(* ================================================================== *)
(** * Term exclusion filter *)
(* ================================================================== *)

Section Extractors.
Context {db : CharDB}.

Definition non_vocab_terms_normalized : list str :=
    map py
      [ "direct instruction"; "procedure"; "direct instruction procedure";
        "procedure safety"; "direct instruction, procedure";
        "direct instruction , procedure"; "vocab definition"; "module guide";
        "assessment"; "goals"; "gather"; "clean up"; "summary"; "fa kc";
        "activity lead in"; "post test"; "intro"; "worksheet"; "careers";
        "related careers"; "materials"; "session materials";
        "gather the following items"; "gather the following item";
        "locate the following"; "locate the"; "insert slide type";
        "insert slide layout"; "insert media description" ]%string.

  (** [re.sub(r'[^a-z0-9]+', ' ', text.lower()).strip()]. *)
Definition _normalize_phrase (text : str) : str :=
    strip (re_sub false
             (Plus (Class true [CRange 97%N 122%N; CRange 48%N 57%N]))
             (py " ") (str_lower text)).

Definition placeholder_patterns : list str :=
    map py
      [ "direct instruction"; "procedure"; "worksheet"; "vocab definition";
        "activity lead in"; "gather"; "clean up"; "summary"; "goals";
        "assessment"; "careers"; "related careers"; "materials";
        "session materials"; "fa kc"; "post test"; "intro";
        "insert slide"; "insert media"; "insert layout"; "objectives" ]%string.

Definition placeholder_starts : list str :=
    map py [ "insert"; "post"; "direct"; "procedure"; "vocab"; "gather";
             "clean" ]%string.

Definition should_exclude_vocab (text : str) : bool :=
    if negb (nonempty text) then true else
    let clean_text := strip text in
    let normalized := _normalize_phrase clean_text in
    if length normalized <=? 2 then true else
    if length clean_text <=? 2 then true else
    if existsb (fun pattern => contains normalized pattern) placeholder_patterns
    then true else
    if str_in normalized non_vocab_terms_normalized then true else
    if existsb (fun start_word => startswith normalized (start_word ++ py " "))
               placeholder_starts
    then true else
    if endswith normalized (py " worksheet") || endswith normalized (py " definition")
    then true else
    if chr_in 44%N clean_text
       && forallb
            (fun part =>
               let part_normalized := _normalize_phrase part in
               existsb (fun pattern => contains part_normalized pattern
                                       || contains pattern part_normalized)
                       placeholder_patterns)
            (map strip (split_on 44%N clean_text))
    then true
    else false.

(* ================================================================== *)
(** * Vocabulary extractor *)
(* ================================================================== *)

Definition VocabularyItem : Type := (str * str)%type.

Definition is_true (b : option bool) : bool :=
    match b with Some true => true | _ => false end.

  (** The first loop over [paragraph.runs], threading [vocab_word] and
      [definition_parts]. *)
Fixpoint scan_runs (runs : list run) (p : paragraph) (pres : presentation)
           (vocab_word : option str) (definition_parts : list str)
    : result (option str * list str) :=
    match runs with
    | [] => Ok (vocab_word, definition_parts)
    | r :: rest =>
        let text := strip (run_text r) in
        if negb (nonempty text) then scan_runs rest p pres vocab_word definition_parts
        else
          let effective_rgb := get_effective_color r p pres in
          is_blue <- is_blue_color effective_rgb ;;
          let is_bold := is_true (run_bold r) in
          if is_blue && is_bold
             && negb (match vocab_word with Some w => nonempty w | None => false end)
             && negb (should_exclude_vocab text)
          then scan_runs rest p pres (Some text) definition_parts
          else
            match vocab_word with
            | Some w =>
                if nonempty w && nonempty text
                then scan_runs rest p pres vocab_word (definition_parts ++ [text])
                else scan_runs rest p pres vocab_word definition_parts
            | None => scan_runs rest p pres vocab_word definition_parts
            end
    end.

Definition looks_like_term (text : str) : bool :=
    let words := length (split_ws text) in
    (1 <? words) && (words <=? 3)
    && negb (existsb (fun c => chr_in c text) (py ".,!?;[]()"))
    && negb (isdigit text)
    && (2 <? length text).

  (** The fallback loop: the first bold run that looks like a term. *)
Fixpoint bold_fallback (runs : list run) : option str :=
    match runs with
    | [] => None
    | r :: rest =>
        let text := strip (run_text r) in
        if nonempty text && is_true (run_bold r)
           && negb (should_exclude_vocab text) && looks_like_term text
        then Some text
        else bold_fallback rest
    end.

  (** [<escaped term>\s*[:-]?\s*(.+)]. *)
Definition definition_pattern (vocab_word : str) : regex :=
    re_escape vocab_word · Star Space
      · Opt (Class false [CChar 58%N; CChar 45%N]) · Star Space
      · Group (Plus AnyChar).

Definition extract_definition (vocab_word : str) (definition_parts : list str)
             (full_text : str) : str :=
    match re_search true (definition_pattern vocab_word) full_text with
    | Some m => strip (group1 full_text m)
    | None =>
        let definition := strip (join (py " ") definition_parts) in
        if nonempty definition then definition
        else
          let text_after_vocab :=
            strip (slice_from full_text
                     (find (str_lower full_text) (str_lower vocab_word)
                      + Z.of_nat (length vocab_word))) in
          if startswith_any text_after_vocab
               [py ":"; py "-"; [EN_DASH]; [EM_DASH]]
          then strip (skipn 1 text_after_vocab)
          else text_after_vocab
    end.

  (** The body of the loop over [text_frame.paragraphs]: the vocabulary
      list after one paragraph. *)
Definition vocab_paragraph (pres : presentation)
             (vocabulary_items : list VocabularyItem) (p : paragraph)
    : result (list VocabularyItem) :=
    let current_paragraph_text := strip (para_text p) in
    if negb (nonempty current_paragraph_text) then Ok vocabulary_items else
    scanned <- scan_runs (para_runs p) p pres None [] ;;
    let '(found, definition_parts) := scanned in
    let vocab_word :=
      match found with
      | Some w => if nonempty w then Some w else bold_fallback (para_runs p)
      | None => bold_fallback (para_runs p)
      end in
    match vocab_word with
    | Some w =>
        if nonempty w then
          let definition := extract_definition w definition_parts (para_text p) in
          if nonempty definition && (3 <? length definition)
          then Ok (vocabulary_items ++ [(w, definition)])
          else Ok vocabulary_items
        else Ok vocabulary_items
    | None => Ok vocabulary_items
    end.

  (** A left fold whose step can raise. *)
Fixpoint foldM {A B : Type} (f : A -> B -> result A) (acc : A) (l : list B)
    : result A :=
    match l with
    | [] => Ok acc
    | x :: l' => acc' <- f acc x ;; foldM f acc' l'
    end.

Definition vocab_shape (pres : presentation)
             (vocabulary_items : list VocabularyItem) (sh : shape)
    : result (list VocabularyItem) :=
    match shape_text_frame sh with
    | Some tf => foldM (vocab_paragraph pres) vocabulary_items (tf_paragraphs tf)
    | None => Ok vocabulary_items
    end.

Definition extract_vocabulary_from_slide (s : slide) (pres : presentation)
    : result (list VocabularyItem) :=
    foldM (vocab_shape pres) [] (slide_shapes s).

(* ================================================================== *)
(** * Section trigger extractors *)
(* ================================================================== *)

  (** [if item and item not in acc: acc.append(item)]. *)
Definition append_if_new (acc : list str) (item : str) : list str :=
    if nonempty item && negb (str_in item acc) then acc ++ [item] else acc.

  (** [^\d+[\.\)]\s+]. *)
Definition list_numbering : regex :=
    Bol · Plus Digit · Class false [CChar 46%N; CChar 41%N] · Plus Space.

  (** [^\d+\.?\s+]. *)
Definition loose_numbering : regex :=
    Bol · Plus Digit · Opt (Lit 46%N) · Plus Space.

  (** [re.sub(r'^\d+[\.\)]\s+', '', text)] then
      [.lstrip('•·-*◦').strip()]. *)
Definition _clean_list_item (text : str) : str :=
    let text := re_sub false list_numbering [] text in
    strip (lstrip_chars bullet_glyphs text).

  (** The tuple [('•', '·', '-', '*', '◦')]. *)
Definition bullet_prefixes : list str := map (fun c => [c]) bullet_glyphs.

Definition matches (r : regex) (text : str) : bool :=
    match re_match false r text with Some _ => true | None => false end.

Definition has_text (sh : shape) : option (text_frame * str) :=
    match shape_text_frame sh with
    | Some tf => if nonempty (tf_text tf) then Some (tf, tf_text tf) else None
    | None => None
    end.

  (** ** Goals *)

Definition goal_trigger_patterns : list regex :=
    [ lit (py "In today's session") · Opt (Lit 44%N) · Star Space
        · lit (py "you will") · Opt (Lit 58%N);
      lit (py "In this session") · Opt (Lit 44%N) · Star Space
        · lit (py "you will") · Opt (Lit 58%N);
      lit (py "Today") · Opt (Lit 44%N) · Star Space
        · lit (py "you will") · Opt (Lit 58%N);
      Bol · lit (py "GOALS") · Eol;
      Bol · lit (py "Goals") · Eol;
      lit (py "Session Goals");
      lit (py "Learning Goals");
      Bol · lit (py "Objectives") · Eol ].

Definition goal_trigger_fragments : list str :=
    map py [ "in today's session"; "in this session"; "today, you will";
             "you will:"; "goals:"; "objectives:"; "session goals";
             "learning goals" ]%string.

Definition goal_trigger_words : list str :=
    map py [ "goals"; "objectives"; "session goals"; "learning goals" ]%string.

Definition goal_instructions : list str :=
    map py [ "now that you have completed"; "module activity sheet";
             "student portfolio"; "turn on your call light";
             "review the following skills"; "waiting for your instructor" ]%string.

Definition skip_terms : list str :=
    map py [ "insert"; "slide layout"; "media description"; "copyright" ]%string
      ++ [[COPYRIGHT]].

Definition goal_words : list str :=
    map py [ "will"; "explore"; "examine"; "learn"; "understand"; "identify";
             "analyze"; "demonstrate"; "observe"; "discover"; "explain";
             "describe"; "investigate"; "construct"; "compare"; "use";
             "apply"; "evaluate"; "create"; "synthesize"; "capture";
             "develop"; "practice"; "determine"; "calculate"; "solve";
             "recognize"; "review"; "begin"; "complete" ]%string.

  (** A line of the text after the trigger. *)
Definition goals_after_trigger (goals : list str) (line : str) : list str :=
    let line := strip line in
    if nonempty line && (3 <? length line) then
      let line_lower := str_lower line in
      if existsb (contains line_lower) goal_trigger_fragments
         || str_in (strip line_lower) goal_trigger_words
         || existsb (contains line_lower) goal_instructions
      then goals
      else append_if_new goals (_clean_list_item line)
    else goals.

  (** A line of a shape without trigger on a slide that has one. *)
Definition goals_standalone (goals : list str) (line : str) : list str :=
    let line := strip line in
    if nonempty line && (10 <? length line) then
      let line_lower := str_lower line in
      if existsb (contains line_lower) skip_terms
         || existsb (contains line_lower) goal_trigger_fragments
         || str_in (strip line_lower) goal_trigger_words
      then goals
      else if startswith_any line bullet_prefixes
              || existsb (contains line_lower) goal_words
      then append_if_new goals (_clean_list_item line)
      else goals
    else goals.

  (** The paragraph-level pass over the same shape. *)
Definition goals_paragraph (goals : list str) (p : paragraph) : list str :=
    let para_text := strip (para_text p) in
    if nonempty para_text && (10 <? length para_text) then
      let para_lower := str_lower para_text in
      if any_search goal_trigger_patterns para_text
         || existsb (contains para_lower) skip_terms
         || existsb (contains para_lower) goal_trigger_fragments
         || str_in (strip para_lower) goal_trigger_words
      then goals
      else if startswith_any para_text bullet_prefixes
              || existsb (contains para_lower) goal_words
      then append_if_new goals (_clean_list_item para_text)
      else goals
    else goals.

Definition goals_shape (goals : list str) (sh : shape) : list str :=
    match has_text sh with
    | None => goals
    | Some (tf, full_text) =>
        match first_search goal_trigger_patterns full_text with
        | Some m =>
            let content_after_trigger := strip (skipn (mo_end m) full_text) in
            fold_left goals_after_trigger (split_on LF content_after_trigger) goals
        | None =>
            let goals := fold_left goals_standalone (split_on LF full_text) goals in
            fold_left goals_paragraph (tf_paragraphs tf) goals
        end
    end.

Definition slide_has_trigger (patterns : list regex) (s : slide) : bool :=
    existsb (fun sh => match has_text sh with
                       | Some (_, full_text) => any_search patterns full_text
                       | None => false
                       end) (slide_shapes s).

Definition extract_session_goals (s : slide) : list str :=
    if negb (slide_has_trigger goal_trigger_patterns s) then []
    else fold_left goals_shape (slide_shapes s) [].

  (** ** Assessments *)

Definition assessment_trigger_patterns : list regex :=
    map (fun p => lit (py p))
      [ "your instructor will be evaluating you";
        "listed onscreen are the specific items"; "assessment";
        "you will be evaluated on"; "evaluation criteria";
        "instructor will evaluate"; "assessment criteria";
        "performance indicators"; "you should be able to" ]%string.

Definition assessment_instructions : list str :=
    map py [ "now that you have completed"; "module activity sheet";
             "student portfolio"; "turn on your call light";
             "review the following skills"; "waiting for your instructor";
             "find the module activity sheet" ]%string.

Definition assessment_words : list str :=
    map py [ "describe"; "explain"; "identify"; "analyze"; "compare";
             "demonstrate"; "use"; "construct"; "examine"; "define"; "name";
             "list"; "calculate"; "determine"; "give"; "provide"; "show";
             "illustrate"; "evaluate" ]%string.

Definition assessments_after_trigger (assessments : list str) (line : str)
    : list str :=
    let line := strip line in
    if nonempty line && (3 <? length line) then
      let line_lower := str_lower line in
      if contains line_lower (py "review the list")
         || contains line_lower (py "before continuing")
         || existsb (contains line_lower) assessment_instructions
      then assessments
      else append_if_new assessments (_clean_list_item line)
    else assessments.

Definition assessments_standalone (assessments : list str) (line : str)
    : list str :=
    let line := strip line in
    if nonempty line && (10 <? length line) then
      let line_lower := str_lower line in
      if any_search assessment_trigger_patterns line
         || contains line_lower (py "review the list")
         || contains line_lower (py "before continuing")
         || existsb (contains line_lower) skip_terms
         || existsb (contains line_lower) assessment_instructions
      then assessments
      else if matches loose_numbering line
              || startswith_any line bullet_prefixes
              || existsb (contains line_lower) assessment_words
      then append_if_new assessments (_clean_list_item line)
      else assessments
    else assessments.

Definition assessments_shape (assessments : list str) (sh : shape) : list str :=
    match has_text sh with
    | None => assessments
    | Some (tf, full_text) =>
        match first_search assessment_trigger_patterns full_text with
        | Some m =>
            let content_after_trigger := strip (skipn (mo_end m) full_text) in
            fold_left assessments_after_trigger
                      (split_on LF content_after_trigger) assessments
        | None =>
            fold_left assessments_standalone (split_on LF full_text) assessments
        end
    end.

Definition extract_assessments (s : slide) : list str :=
    if negb (slide_has_trigger assessment_trigger_patterns s) then []
    else fold_left assessments_shape (slide_shapes s) [].

  (** ** Careers *)

Definition career_trigger_patterns : list regex :=
    [ WordBoundary · lit (py "related careers") · WordBoundary;
      WordBoundary · lit (py "careers") · WordBoundary ].

Definition looks_like_career (line : str) : bool :=
    startswith_any line bullet_prefixes
    || matches loose_numbering line
    || ((length line <=? 80) && isupper (firstn 1 line)
        && negb (endswith line (py ":"))).

  (** One line (or paragraph) of a careers shape; the state is the result
      list and the [found_trigger] flag. *)
Definition careers_line (st : list str * bool) (line : str) : list str * bool :=
    let '(careers, found_trigger) := st in
    if any_search career_trigger_patterns line then (careers, true)
    else if found_trigger && nonempty line then
      if looks_like_career line
      then (append_if_new careers (_clean_list_item line), found_trigger)
      else (careers, found_trigger)
    else (careers, found_trigger).

Definition careers_shape (careers : list str) (sh : shape) : list str :=
    match has_text sh with
    | None => careers
    | Some (tf, full_text) =>
        if any_search career_trigger_patterns full_text then
          let lines := map strip (split_on LF full_text) in
          let careers := fst (fold_left careers_line lines (careers, false)) in
          let paras := map (fun p => strip (para_text p)) (tf_paragraphs tf) in
          fst (fold_left careers_line paras (careers, false))
        else careers
    end.

Definition extract_careers (s : slide) : list str :=
    fold_left careers_shape (slide_shapes s) [].

  (** ** Session materials *)

Definition material_trigger_patterns : list regex :=
    [ lit (py "gather") · Plus Space · lit (py "the") · Plus Space
        · lit (py "following") · Plus Space · lit (py "item") · Opt (Lit 115%N);
      lit (py "locate") · Plus Space · lit (py "the") · Plus Space
        · lit (py "following");
      WordBoundary · lit (py "locate") · Plus Space · lit (py "the")
        · WordBoundary ].

Definition looks_like_material (line : str) : bool :=
    startswith_any line bullet_prefixes
    || matches loose_numbering line
    || ((length line <=? 120) && negb (endswith line (py ":"))).

Definition materials_line (st : list str * bool) (line : str) : list str * bool :=
    let '(materials, found_trigger) := st in
    if any_search material_trigger_patterns line then (materials, true)
    else if found_trigger && nonempty line then
      if looks_like_material line
      then (append_if_new materials (_clean_list_item line), found_trigger)
      else (materials, found_trigger)
    else (materials, found_trigger).

Definition materials_shape (materials : list str) (sh : shape) : list str :=
    match has_text sh with
    | None => materials
    | Some (tf, full_text) =>
        if any_search material_trigger_patterns full_text then
          let lines := map strip (split_on LF full_text) in
          let materials := fst (fold_left materials_line lines (materials, false)) in
          let paras := map (fun p => strip (para_text p)) (tf_paragraphs tf) in
          fst (fold_left materials_line paras (materials, false))
        else materials
    end.

Definition extract_session_materials (s : slide) : list str :=
    fold_left materials_shape (slide_shapes s) [].

(* ================================================================== *)
(** * Per-deck aggregator and per-corpus driver *)
(* ================================================================== *)

Record DeckRecord : Type := {
    vocabulary : list VocabularyItem;
    goals : list str;
    assessments : list str;
    careers : list str;
    materials : list str
  }.

Definition empty_record : DeckRecord :=
    {| vocabulary := []; goals := []; assessments := []; careers := [];
       materials := [] |}.

  (** [for x in items: if x not in acc: acc.append(x)]. *)
Definition extend_new (acc items : list str) : list str :=
    fold_left (fun acc x => if negb (str_in x acc) then acc ++ [x] else acc)
              items acc.

  (** The body of the loop over [presentation.slides]. *)
Definition aggregate_slide (pres : presentation) (rec : DeckRecord)
             (next : result slide) : result DeckRecord :=
    s <- next ;;
    vocab_items <- extract_vocabulary_from_slide s pres ;;
    let all_vocabulary :=
      if nonempty vocab_items then vocabulary rec ++ vocab_items
      else vocabulary rec in
    let goal_items := extract_session_goals s in
    let session_goals :=
      if nonempty goal_items then extend_new (goals rec) goal_items
      else goals rec in
    let assessment_items := extract_assessments s in
    let all_assessments :=
      if nonempty assessment_items then extend_new (assessments rec) assessment_items
      else assessments rec in
    let careers_items := extract_careers s in
    let all_careers :=
      if nonempty careers_items then careers_items else careers rec in
    let materials_items := extract_session_materials s in
    let all_materials :=
      if nonempty materials_items then materials rec ++ materials_items
      else materials rec in
    Ok {| vocabulary := all_vocabulary; goals := session_goals;
          assessments := all_assessments; careers := all_careers;
          materials := all_materials |}.

  (** The document parser: [Presentation(path)] opens a deck or raises. *)
Definition filesystem : Type := str -> result presentation.

Definition extract_all_content_from_ppt (fs : filesystem) (ppt_path : str)
    : result DeckRecord :=
    try_except
      (presentation <- fs ppt_path ;;
       foldM (aggregate_slide presentation) empty_record
             (pres_slides presentation))
      (fun _ => Ok empty_record).

  (** A [pathlib.Path] entry of the directory listing. *)
Record Path : Type := {
    path_str : str;      (* [str(p)] *)
    path_name : str      (* [p.name] *)
  }.

  (** [any(content.values())]. *)
Definition any_content (content : DeckRecord) : bool :=
    nonempty (vocabulary content) || nonempty (goals content)
    || nonempty (assessments content) || nonempty (careers content)
    || nonempty (materials content).

  (** [d[key] = value] on an insertion-ordered dictionary. *)
Fixpoint dict_set {V : Type} (d : list (str * V)) (key : str) (value : V)
    : list (str * V) :=
    match d with
    | [] => [(key, value)]
    | (k, v) :: d' =>
        if str_eqb k key then (k, value) :: d'
        else (k, v) :: dict_set d' key value
    end.

Fixpoint dict_get {V : Type} (d : list (str * V)) (key : str) : option V :=
    match d with
    | [] => None
    | (k, v) :: d' => if str_eqb k key then Some v else dict_get d' key
    end.

  (** The body of the loop over [ppt_files]. *)
Definition process_file (fs : filesystem)
             (all_content : list (str * DeckRecord)) (ppt_file : Path)
    : result (list (str * DeckRecord)) :=
    content <- extract_all_content_from_ppt fs (path_str ppt_file) ;;
    if any_content content
    then Ok (dict_set all_content (path_name ppt_file) content)
    else Ok all_content.

  (** [process_all_ppt_files], given the listing [glob("*.pptx")]. *)
Definition process_all_ppt_files (fs : filesystem) (ppt_files : list Path)
    : result (list (str * DeckRecord)) :=
    if negb (nonempty ppt_files) then Ok []
    else foldM (process_file fs) [] ppt_files.

(* ================================================================== *)
(** * Module acronym *)
(* ================================================================== *)

  (** [s.rfind(c)]: index of the last occurrence, [-1] when absent. *)
Fixpoint rfind_from (c : char) (s : str) (i : Z) (last : Z) : Z :=
    match s with
    | [] => last
    | d :: s' => rfind_from c s' (i + 1)%Z (if chr_eqb d c then i else last)
    end.

Definition rfind (s : str) (c : char) : Z := rfind_from c s 0%Z (-1)%Z.

  (** [os.path.splitext(p)[0]]: cut at the last dot of the last path
      component unless that component has only dots before it. *)
Definition splitext_root (p : str) : str :=
    let sepIndex := rfind p 47%N in
    let dotIndex := rfind p 46%N in
    if (sepIndex <? dotIndex)%Z then
      let filenameIndex := Z.to_nat (sepIndex + 1) in
      let before_dot := firstn (Z.to_nat dotIndex - filenameIndex)
                               (skipn filenameIndex p) in
      if existsb (fun c => negb (chr_eqb c 46%N)) before_dot
      then firstn (Z.to_nat dotIndex) p
      else p
    else p.

Definition extract_module_acronym (filename : str) : str :=
    let base_name := splitext_root filename in
    let parts := split_on 95%N base_name in
    match parts with
    | first :: _ => first
    | [] => py "UNKN"
    end.

(* ================================================================== *)
(** * The careers policy in the spec's words *)
(* ================================================================== *)

(** Stated from the specification: the result of the last slide, in
    document order, whose careers extraction is non-empty; the empty list
    when no slide has one. *)
Fixpoint last_nonempty (per_slide : list (list str)) : list str :=
  match per_slide with
  | [] => []
  | items :: later =>
      match last_nonempty later with
      | [] => items
      | latest => latest
      end
  end.

End Extractors.

(* ================================================================== *)
(** * Sample inputs *)
(* ================================================================== *)

(** A paragraph with the given text and no runs. *)
Definition plain_paragraph (text : string) : paragraph :=
  {| para_text := py text; para_runs := []; para_color := NoColor |}.

(** A slide with one text box holding the given paragraphs. *)
Definition text_slide (lines : list string) : slide :=
  {| slide_shapes :=
       [ {| shape_text_frame :=
              Some {| tf_paragraphs := map plain_paragraph lines |} |} ] |}.

Definition blank_slide : slide := {| slide_shapes := [] |}.

Definition deck_of (slides : list slide) : presentation :=
  {| pres_slides := map Ok slides; pres_clrScheme := Raise AttributeError |}.

(** Nine slides: careers on slide 5 and again, longer, on slide 9. *)
Definition careers_slides : list slide :=
  [ text_slide ["Rocks and Minerals"]%string; blank_slide; blank_slide;
    blank_slide;
    text_slide ["Related Careers"; "Geologist"]%string;
    blank_slide; blank_slide; blank_slide;
    text_slide ["Related Careers"; "Geologist"; "Hydrologist"]%string ].

(** Two decks that both state the goal "Identify rock types"; the first
    states it on two slides. *)
Definition goal_slide : slide :=
  text_slide ["In today's session, you will:"; "- Identify rock types"]%string.

Definition two_decks : filesystem :=
  fun path =>
    if str_eqb path (py "in/GEOL_1.pptx") then Ok (deck_of [goal_slide; goal_slide])
    else if str_eqb path (py "in/GEOL_2.pptx") then Ok (deck_of [blank_slide; goal_slide])
    else if str_eqb path (py "in/careers.pptx") then Ok (deck_of careers_slides)
    else Raise (PackageError "Package not found").

Definition GEOL_1 : Path :=
  {| path_str := py "in/GEOL_1.pptx"; path_name := py "GEOL_1.pptx" |}.
Definition GEOL_2 : Path :=
  {| path_str := py "in/GEOL_2.pptx"; path_name := py "GEOL_2.pptx" |}.

(** The record of the second deck. *)
Definition GEOL_2_record : DeckRecord :=
  {| vocabulary := []; goals := [py "Identify rock types"]; assessments := [];
     careers := []; materials := [] |}.

(** The vocabulary paragraph [bold+blue "Osmosis"] [plain ": the movement
    of water."], for an explicit run colour. *)
Definition osmosis_paragraph (r g b : Z) : paragraph :=
  {| para_text := py "Osmosis: the movement of water.";
     para_runs :=
       [ {| run_text := py "Osmosis"; run_bold := Some true;
            run_color := ExplicitRGB r g b |};
         {| run_text := py ": the movement of water."; run_bold := None;
            run_color := NoColor |} ];
     para_color := NoColor |}.

(** The same term with a definition of two characters only. *)
Definition short_definition_paragraph : paragraph :=
  {| para_text := py "Osmosis: ab";
     para_runs :=
       [ {| run_text := py "Osmosis"; run_bold := Some true;
            run_color := ExplicitRGB 0 112 192 |};
         {| run_text := py ": ab"; run_bold := None; run_color := NoColor |} ];
     para_color := NoColor |}.

(** An object with no channel accessor at all. *)
Definition featureless : rgb_object :=
  {| attr_red := None; attr_green := None; attr_blue := None;
     attr_r := None; attr_g := None; attr_b := None; tuple_items := None |}.

(* ================================================================== *)
(** * Notions used to state properties of the matcher *)
(* ================================================================== *)

(** [st'] is [st] moved forward over some characters of the subject. *)
Definition moved_forward (st st' : mstate) : Prop :=
  exists consumed,
    m_rest st = consumed ++ m_rest st'
    /\ m_pos st' = m_pos st + length consumed.

(** The characters [_normalize_phrase] can leave in a phrase. *)
Definition normalized_char (c : char) : bool :=
  chr_eqb c 32%N || (97 <=? c)%N && (c <=? 122)%N || (48 <=? c)%N && (c <=? 57)%N.

(* ================================================================== *)
(** * The report document, [run] and [main] *)
(* ================================================================== *)

(** What the report writer appends to the [Document]: a heading with its
    level, a paragraph (with its alignment and the italic flag of its
    run), or a page break. *)
Inductive block : Type :=
| Heading (text : str) (level : nat) (centered : bool)
| Paragraph (text : str) (centered : bool) (italic : bool)
| PageBreak.

(** [doc.add_paragraph()]. *)
Definition blank : block := Paragraph [] false false.

(** [str(n)] for a count or an index. *)
Definition str_of_nat (n : nat) : str :=
  py (NilZero.string_of_uint (Nat.to_uint n)).

(** [a < b] on strings: lexicographic on code points. *)
Fixpoint str_ltb (a b : str) : bool :=
  match a, b with
  | _, [] => false
  | [], _ :: _ => true
  | x :: a', y :: b' => (x <? y)%N || (x =? y)%N && str_ltb a' b'
  end.

(** [l.sort(key=key)] and [sorted(l)]: the stable sort, an element going
    in front of the first one whose key is not smaller. *)
Fixpoint insert_by {A : Type} (key : A -> str) (x : A) (l : list A) : list A :=
  match l with
  | [] => [x]
  | y :: l' =>
      if str_ltb (key y) (key x) then y :: insert_by key x l'
      else x :: y :: l'
  end.

Definition sort_by {A : Type} (key : A -> str) (l : list A) : list A :=
  fold_right (insert_by key) [] l.

(** [d[key].append(item)] on a [defaultdict(list)]. *)
Fixpoint dict_append (d : list (str * list str)) (key item : str)
  : list (str * list str) :=
  match d with
  | [] => [(key, [item])]
  | (k, v) :: d' =>
      if str_eqb k key then (k, v ++ [item]) :: d'
      else (k, v) :: dict_append d' key item
  end.

(** [for item, source_file in pairs: by_session[source_file].append(item)]. *)
Definition group_by_session (pairs : list (str * str)) : list (str * list str) :=
  fold_left (fun d '(item, source_file) => dict_append d source_file item) pairs [].

(** [for i, item in enumerate(items, i): doc.add_paragraph(f'{i}. {item}')]. *)
Fixpoint numbered (i : nat) (items : list str) : list block :=
  match items with
  | [] => []
  | item :: rest =>
      Paragraph (str_of_nat i ++ py ". " ++ item) false false
        :: numbered (S i) rest
  end.

(** Sections 2 to 5: a page break, the section heading, then per file
    name in sorted order its heading, its numbered items and a blank
    paragraph; nothing when there are no items. *)
Definition session_section (title : str) (pairs : list (str * str)) : list block :=
  if nonempty pairs then
    let by_session := group_by_session pairs in
    PageBreak :: Heading title 1 false
      :: flat_map
           (fun filename =>
              Heading filename 2 false
                :: numbered 1 (match dict_get by_session filename with
                               | Some items => items
                               | None => []
                               end)
                ++ [blank])
           (sort_by (fun k => k) (map fst by_session))
  else [].

(** [for filename, content in all_content.items():
       for x in content[field]: out.append((x, filename))]. *)
Definition with_source {A : Type} (field : DeckRecord -> list A)
           (all_content : list (str * DeckRecord)) : list (A * str) :=
  flat_map (fun '(filename, content) => map (fun x => (x, filename)) (field content))
           all_content.

Section Report.
Context {db : CharDB}.

(** [all_vocab.sort(key=lambda x: x[0].lower())]. *)
Definition sorted_vocabulary (all_vocab : list (VocabularyItem * str))
  : list (VocabularyItem * str) :=
  sort_by (fun x => str_lower (fst (fst x))) all_vocab.

(** The entries of section 1, numbered from [i], [total] being
    [len(all_vocab)]. *)
Fixpoint vocabulary_entries (i total : nat) (entries : list (VocabularyItem * str))
  : list block :=
  match entries with
  | [] => []
  | ((word, definition), source_file) :: rest =>
      Heading (str_of_nat i ++ py ". " ++ word) 2 false
        :: Paragraph definition false false
        :: Paragraph (py "Source: " ++ source_file) false true
        :: (if i <? total then [blank] else [])
        ++ vocabulary_entries (S i) total rest
  end.

Definition vocabulary_section (all_vocab : list (VocabularyItem * str)) : list block :=
  if nonempty all_vocab then
    Heading (py "1. Vocabulary Terms") 1 false
      :: vocabulary_entries 1 (length all_vocab) (sorted_vocabulary all_vocab)
  else [].

Definition summary_text (n_vocab n_goals n_assessments n_careers n_materials : nat)
  : str :=
  py "Content Summary:" ++ [LF]
    ++ [BULLET] ++ py " Vocabulary Terms: " ++ str_of_nat n_vocab ++ [LF]
    ++ [BULLET] ++ py " Session Goals: " ++ str_of_nat n_goals ++ [LF]
    ++ [BULLET] ++ py " Assessment Items: " ++ str_of_nat n_assessments ++ [LF]
    ++ [BULLET] ++ py " Careers: " ++ str_of_nat n_careers ++ [LF]
    ++ [BULLET] ++ py " Session Materials: " ++ str_of_nat n_materials ++ [LF]
    ++ [BULLET] ++ py " QA Tickets: (Manual entry section)" ++ [LF]
    ++ [BULLET] ++ py " Notes: (Manual entry section)".

(** [create_word_document]: the blocks appended to the document, and the
    path it is saved under. *)
Definition create_word_document (all_content : list (str * DeckRecord))
           (output_path : str) (module_acronym : str) : str * list block :=
  let all_vocab := with_source vocabulary all_content in
  let all_goals := with_source goals all_content in
  let all_assessments := with_source assessments all_content in
  let all_careers := with_source careers all_content in
  let all_materials := with_source materials all_content in
  let doc :=
    [ Heading (module_acronym ++ py " - Documentation Updates & Tickets") 0 true;
      Paragraph (py "Extracted from " ++ module_acronym ++ py " PowerPoint Sessions")
                true false;
      blank;
      Paragraph (summary_text (length all_vocab) (length all_goals)
                              (length all_assessments) (length all_careers)
                              (length all_materials))
                true false;
      PageBreak ]
    ++ vocabulary_section all_vocab
    ++ session_section (py "2. Session Goals") all_goals
    ++ session_section (py "3. Assessment Items") all_assessments
    ++ session_section (py "4. Related Careers") all_careers
    ++ session_section (py "5. Session Materials") all_materials
    ++ [PageBreak; Heading (py "QA Tickets") 1 false]
    ++ repeat blank 8
    ++ [Heading (py "Notes") 1 false]
    ++ repeat blank 8 in
  (output_path, doc).

(** [os.path.join(a, b)]. *)
Definition path_join (a b : str) : str :=
  if startswith b (py "/") then b
  else if negb (nonempty a) || endswith a (py "/") then a ++ b
  else a ++ py "/" ++ b.

(** [f"{acronym}_Doc Updates & Tickets.docx"]. *)
Definition default_output_filename (acronym : str) : str :=
  acronym ++ py "_Doc Updates & Tickets.docx".

(** What the method [run] takes from its surroundings: the working
    directory ([os.getcwd()], which can raise), the listing
    [glob("*.pptx")] of a directory (the same for the two calls it
    makes), the line [input()] would read, and the two calls of the
    report writer that can fail: [Document()], which opens the template,
    and [doc.save(path)], which writes the file. *)
Record environment : Type := {
  getcwd : result str;
  glob_pptx : str -> list Path;
  input_line : str;
  new_document : result unit;
  save_document : str -> list block -> result unit
}.

(** The effects around the blocks of [create_word_document]: [Document()]
    first, [doc.save(output_path)] last.  Neither is guarded, so what
    they raise leaves [create_word_document] and its caller. *)
Definition write_report (env : environment) (report : str * list block)
  : result (str * list block) :=
  _ <- new_document env ;;
  _ <- save_document env (fst report) (snd report) ;;
  Ok report.

(** The method [run] of the extractor: [None] when it returns without
    writing, otherwise the saved path and the document. *)
Definition extractor_run (fs : filesystem) (env : environment)
           (directory output_filename : option str)
  : result (option (str * list block)) :=
  directory <- match directory with Some d => Ok d | None => getcwd env end ;;
  all_content <- process_all_ppt_files fs (glob_pptx env directory) ;;
  if negb (nonempty all_content) then Ok None else
  let ppt_files := glob_pptx env directory in
  let module_acronym :=
    match ppt_files with
    | first :: _ => extract_module_acronym (path_name first)
    | [] => strip (input_line env)
    end in
  let output_filename :=
    match output_filename with
    | Some name => name
    | None => default_output_filename module_acronym
    end in
  let output_path := path_join directory output_filename in
  report <- write_report env
              (create_word_document all_content output_path module_acronym) ;;
  Ok (Some report).

(** The parsed command line. *)
Record arguments : Type := {
  arg_directory : option str;
  arg_output : option str;
  arg_acronym : option str;
  arg_debug : bool
}.

Definition truthy (s : option str) : bool :=
  match s with Some x => nonempty x | None => false end.

Definition main (fs : filesystem) (env : environment) (args : arguments)
  : result (option (str * list block)) :=
  directory <- (if truthy (arg_directory args)
                then match arg_directory args with
                     | Some d => Ok d
                     | None => getcwd env
                     end
                else getcwd env) ;;
  let output_filename :=
    match arg_acronym args with
    | Some acronym =>
        if nonempty acronym then Some (default_output_filename acronym)
        else arg_output args
    | None => arg_output args
    end in
  extractor_run fs env (Some directory) output_filename.

End Report.

(** More sample inputs: a careers text frame, an unformatted run, a
    working directory holding the two decks, and a command line that
    gives both an acronym and an output name. *)
Definition careers_frame : text_frame :=
  {| tf_paragraphs :=
       map plain_paragraph ["Related Careers"; "Geologist"; "Hydrologist"]%string |}.

Definition unformatted_run : run :=
  {| run_text := py "water"; run_bold := None; run_color := NoColor |}.

Definition sample_env : environment :=
  {| getcwd := Ok (py "in");
     glob_pptx := fun dir => if str_eqb dir (py "in") then [GEOL_1; GEOL_2] else [];
     input_line := [];
     new_document := Ok tt;
     save_document := fun _ _ => Ok tt |}.


(** A slide with a vocabulary paragraph and a materials list, a deck that
    shows it twice, and two records with goals. *)
Definition lab_slide : slide :=
  {| slide_shapes :=
       [ {| shape_text_frame :=
              Some {| tf_paragraphs := [osmosis_paragraph 0 112 192] |} |};
         {| shape_text_frame :=
              Some {| tf_paragraphs :=
                        map plain_paragraph
                            ["Gather the following items:"; "2 safety goggles"]%string |} |} ] |}.

Definition lab_decks : filesystem :=
  fun path =>
    if str_eqb path (py "in/LABS_1.pptx") then Ok (deck_of [lab_slide; lab_slide])
    else Raise (PackageError "Package not found").

Definition GEOL_1_record : DeckRecord :=
  {| vocabulary := [];
     goals := [py "Explain erosion"; py "Identify rock types"];
     assessments := []; careers := []; materials := [] |}.

Definition sample_args : arguments :=
  {| arg_directory := None; arg_output := Some (py "report.docx");
     arg_acronym := Some (py "ROCK"); arg_debug := false |}.

(* ================================================================== *)
(** * Basic facts about the string model *)
(* ================================================================== *)

Unset Implicit Arguments.

Lemma str_eqb_eq (a b : str) : str_eqb a b = true <-> a = b.
Proof.
  revert b; induction a as [|x a IH]; intros [|y b]; simpl;
    try (split; [discriminate | discriminate]); try tauto.
  unfold chr_eqb. rewrite andb_true_iff, N.eqb_eq, IH.
  split; [intros [-> ->]; reflexivity | intros H; inversion H; auto].
Qed.

Lemma str_eqb_refl (a : str) : str_eqb a a = true.
Proof. apply str_eqb_eq; reflexivity. Qed.

Lemma str_in_In (x : str) (xs : list str) : str_in x xs = true <-> In x xs.
Proof.
  unfold str_in. rewrite existsb_exists. split.
  - intros (y & Hy & E). apply str_eqb_eq in E. subst; assumption.
  - intros H. exists x. split; [assumption | apply str_eqb_refl].
Qed.

Lemma str_in_not_In (x : str) (xs : list str) : str_in x xs = false <-> ~ In x xs.
Proof.
  rewrite <- str_in_In. destruct (str_in x xs); split; congruence.
Qed.

Lemma str_eq_dec (a b : str) : {a = b} + {a <> b}.
Proof. apply (list_eq_dec N.eq_dec). Defined.

Lemma lstrip_fixed (s : str) : lstrip (lstrip s) = lstrip s.
Proof.
  induction s as [|c s IH]; simpl; [reflexivity|].
  destruct (isspace c) eqn:E; [assumption|]. simpl. rewrite E. reflexivity.
Qed.

Lemma lstrip_snoc (s : str) (c : char) :
  isspace c = false -> exists t, lstrip (s ++ [c]) = t ++ [c].
Proof.
  intros Hc. induction s as [|d s (t & IH)]; simpl.
  - rewrite Hc. exists []. reflexivity.
  - destruct (isspace d).
    + exists t. assumption.
    + exists (d :: s). reflexivity.
Qed.

Lemma lstrip_length (s : str) : length (lstrip s) <= length s.
Proof.
  induction s as [|x s IH]; simpl; [lia|]. destruct (isspace x); simpl; lia.
Qed.

Lemma rstrip_keeps_head (s : str) : lstrip s = s -> lstrip (rstrip s) = rstrip s.
Proof.
  unfold rstrip. destruct s as [|c s]; [reflexivity|]. simpl.
  destruct (isspace c) eqn:E.
  - intros H. exfalso. pose proof (lstrip_length s) as L.
    rewrite H in L. simpl in L. lia.
  - intros _. destruct (@lstrip_snoc (rev s) c E) as (t & H).
    rewrite H, rev_app_distr. simpl. rewrite E. reflexivity.
Qed.

Lemma rstrip_fixed (s : str) : rstrip (rstrip s) = rstrip s.
Proof. unfold rstrip. rewrite rev_involutive, lstrip_fixed. reflexivity. Qed.

(** [strip] is idempotent: a stripped string is its own trimming. *)
Lemma strip_fixed (s : str) : strip (strip s) = strip s.
Proof.
  unfold strip. rewrite (@rstrip_keeps_head (lstrip s) (lstrip_fixed s)).
  apply rstrip_fixed.
Qed.

(** Invariants of left folds. *)
Lemma fold_left_invariant {A B : Type} (P : A -> Prop) (f : A -> B -> A)
      (l : list B) (a : A) :
  (forall a b, P a -> P (f a b)) -> P a -> P (fold_left f l a).
Proof.
  intros Hf. revert a. induction l as [|b l IH]; simpl; intros a Ha; auto.
Qed.

Lemma foldM_invariant {A B : Type} (P : A -> Prop) (f : A -> B -> result A)
      (l : list B) (a r : A) :
  (forall a b a', P a -> f a b = Ok a' -> P a') ->
  P a -> foldM f a l = Ok r -> P r.
Proof.
  intros Hf. revert a. induction l as [|b l IH]; simpl; intros a Ha H.
  - inversion H; subst; assumption.
  - destruct (f a b) as [a'|e] eqn:E; simpl in H; [|discriminate].
    eapply IH; [eapply Hf; eassumption | assumption].
Qed.

(** A monadic fold whose steps all return does return. *)
Lemma foldM_total {A B : Type} (f : A -> B -> result A) (l : list B) (a : A) :
  (forall a b, exists a', f a b = Ok a') -> exists r, foldM f a l = Ok r.
Proof.
  intros Hf. revert a. induction l as [|b l IH]; simpl; intros a.
  - eauto.
  - destruct (Hf a b) as (a' & ->). simpl. apply IH.
Qed.

(* ================================================================== *)
(** * Per-slide deduplication inside the section extractors *)
(* ================================================================== *)

Section ExtractorFacts.
Context {db : CharDB}.

Lemma NoDup_snoc (l : list str) (x : str) :
    NoDup l -> ~ In x l -> NoDup (l ++ [x]).
Proof.
    intros Hl Hx. induction Hl as [|y l Hy Hl IH]; simpl.
    - constructor; [intros [] | constructor].
    - constructor.
      + rewrite in_app_iff. intros [H | [H | []]]; [auto|].
        subst. apply Hx. left; reflexivity.
      + apply IH. intros H. apply Hx. right; assumption.
Qed.

Lemma append_if_new_NoDup (acc : list str) (item : str) :
    NoDup acc -> NoDup (append_if_new acc item).
Proof.
    intros H. unfold append_if_new.
    destruct (nonempty item); simpl; [|assumption].
    destruct (str_in item acc) eqn:E; simpl; [assumption|].
    apply NoDup_snoc; [assumption | apply str_in_not_In; assumption].
Qed.

  (** Every branch of a line handler either keeps the list or goes
      through [append_if_new]. *)
Ltac step_nodup :=
    repeat match goal with
           | |- NoDup (if ?c then _ else _) => destruct c
           | |- NoDup (append_if_new _ _) => apply append_if_new_NoDup
           end; auto.

Lemma goals_after_trigger_NoDup (acc : list str) (line : str) :
    NoDup acc -> NoDup (goals_after_trigger acc line).
Proof. intros H. unfold goals_after_trigger. cbv zeta. step_nodup. Qed.

Lemma goals_standalone_NoDup (acc : list str) (line : str) :
    NoDup acc -> NoDup (goals_standalone acc line).
Proof. intros H. unfold goals_standalone. cbv zeta. step_nodup. Qed.

Lemma goals_paragraph_NoDup (acc : list str) (p : paragraph) :
    NoDup acc -> NoDup (goals_paragraph acc p).
Proof. intros H. unfold goals_paragraph. cbv zeta. step_nodup. Qed.

Lemma goals_shape_NoDup (acc : list str) (sh : shape) :
    NoDup acc -> NoDup (goals_shape acc sh).
Proof.
    intros H. unfold goals_shape.
    destruct (has_text sh) as [[tf full_text]|]; [|assumption].
    destruct (first_search goal_trigger_patterns full_text).
    - apply fold_left_invariant; [apply goals_after_trigger_NoDup | assumption].
    - apply fold_left_invariant; [apply goals_paragraph_NoDup|].
      apply fold_left_invariant; [apply goals_standalone_NoDup | assumption].
Qed.

Lemma assessments_after_trigger_NoDup (acc : list str) (line : str) :
    NoDup acc -> NoDup (assessments_after_trigger acc line).
Proof. intros H. unfold assessments_after_trigger. cbv zeta. step_nodup. Qed.

Lemma assessments_standalone_NoDup (acc : list str) (line : str) :
    NoDup acc -> NoDup (assessments_standalone acc line).
Proof. intros H. unfold assessments_standalone. cbv zeta. step_nodup. Qed.

Lemma assessments_shape_NoDup (acc : list str) (sh : shape) :
    NoDup acc -> NoDup (assessments_shape acc sh).
Proof.
    intros H. unfold assessments_shape.
    destruct (has_text sh) as [[tf full_text]|]; [|assumption].
    destruct (first_search assessment_trigger_patterns full_text);
      (apply fold_left_invariant;
       [first [apply assessments_after_trigger_NoDup
              | apply assessments_standalone_NoDup] | assumption]).
Qed.

Lemma careers_line_NoDup (st : list str * bool) (line : str) :
    NoDup (fst st) -> NoDup (fst (careers_line st line)).
Proof.
    destruct st as [acc flag]. simpl. intros H. unfold careers_line.
    repeat match goal with
           | |- NoDup (fst (if ?c then _ else _)) => destruct c
           end; simpl; auto using append_if_new_NoDup.
Qed.

Lemma careers_shape_NoDup (acc : list str) (sh : shape) :
    NoDup acc -> NoDup (careers_shape acc sh).
Proof.
    intros H. unfold careers_shape.
    destruct (has_text sh) as [[tf full_text]|]; [|assumption].
    destruct (any_search career_trigger_patterns full_text); [|assumption].
    apply (fold_left_invariant (fun st => NoDup (fst st)));
      [intros; apply careers_line_NoDup; assumption|]. simpl.
    apply (fold_left_invariant (fun st => NoDup (fst st)));
      [intros; apply careers_line_NoDup; assumption | assumption].
Qed.

Lemma materials_line_NoDup (st : list str * bool) (line : str) :
    NoDup (fst st) -> NoDup (fst (materials_line st line)).
Proof.
    destruct st as [acc flag]. simpl. intros H. unfold materials_line.
    repeat match goal with
           | |- NoDup (fst (if ?c then _ else _)) => destruct c
           end; simpl; auto using append_if_new_NoDup.
Qed.

Lemma materials_shape_NoDup (acc : list str) (sh : shape) :
    NoDup acc -> NoDup (materials_shape acc sh).
Proof.
    intros H. unfold materials_shape.
    destruct (has_text sh) as [[tf full_text]|]; [|assumption].
    destruct (any_search material_trigger_patterns full_text); [|assumption].
    apply (fold_left_invariant (fun st => NoDup (fst st)));
      [intros; apply materials_line_NoDup; assumption|]. simpl.
    apply (fold_left_invariant (fun st => NoDup (fst st)));
      [intros; apply materials_line_NoDup; assumption | assumption].
Qed.

  (** C10.  On every slide each of the four section extractors (goals,
      assessments, careers, materials) returns a list of pairwise distinct
      strings: the exact-string deduplication already happens inside the
      per-slide call, whatever the character tables of the interpreter. *)
Theorem per_slide_lists_distinct (s : slide) :
    NoDup (extract_session_goals s)
    /\ NoDup (extract_assessments s)
    /\ NoDup (extract_careers s)
    /\ NoDup (extract_session_materials s).
Proof.
    unfold extract_session_goals, extract_assessments, extract_careers,
      extract_session_materials.
    repeat split.
    - destruct (negb _); [constructor|].
      apply fold_left_invariant; [apply goals_shape_NoDup | constructor].
    - destruct (negb _); [constructor|].
      apply fold_left_invariant; [apply assessments_shape_NoDup | constructor].
    - apply fold_left_invariant; [apply careers_shape_NoDup | constructor].
    - apply fold_left_invariant; [apply materials_shape_NoDup | constructor].
Qed.

(* ================================================================== *)
(** * The colour classifier never raises *)
(* ================================================================== *)

Lemma is_blue_color_returns (rgb : rgb_arg) : exists v, is_blue_color rgb = Ok v.
Proof.
  destruct rgb as [|o]; simpl; [eauto|].
  destruct (is_blue_color_try o) as [[v|]|e]; simpl; eauto.
Qed.

(* ================================================================== *)
(** * Vocabulary: one pair per paragraph at most *)
(* ================================================================== *)

Lemma scan_runs_returns (runs : list run) (p : paragraph) (pres : presentation)
      (w : option str) (parts : list str) :
  exists r, scan_runs runs p pres w parts = Ok r.
Proof.
  revert w parts. induction runs as [|r runs IH]; intros w parts; simpl.
  - eauto.
  - destruct (negb (nonempty (strip (run_text r)))); [apply IH|].
    destruct (is_blue_color_returns (get_effective_color r p pres)) as (v & ->).
    simpl.
    destruct (_ && _); [apply IH|].
    destruct w as [w|]; [|apply IH].
    destruct (_ && _); apply IH.
Qed.

Lemma extract_definition_stripped (w : str) (parts : list str) (text : str) :
  strip (extract_definition w parts text) = extract_definition w parts text.
Proof.
  unfold extract_definition.
  destruct (re_search true (definition_pattern w) text); [apply strip_fixed|].
  cbv zeta.
  destruct (nonempty (strip (join (py " ") parts))); [apply strip_fixed|].
  destruct (startswith_any _ _); apply strip_fixed.
Qed.

(** What one paragraph does to the slide's vocabulary list. *)
Lemma vocab_paragraph_cases (pres : presentation)
      (vocabulary_items : list VocabularyItem) (p : paragraph) :
  vocab_paragraph pres vocabulary_items p = Ok vocabulary_items
  \/ exists w parts,
       vocab_paragraph pres vocabulary_items p =
         Ok (vocabulary_items ++ [(w, extract_definition w parts (para_text p))])
       /\ 3 < length (extract_definition w parts (para_text p)).
Proof.
  unfold vocab_paragraph. cbv zeta.
  destruct (negb (nonempty (strip (para_text p)))); [left; reflexivity|].
  destruct (scan_runs_returns (para_runs p) p pres None []) as ([found parts] & ->).
  simpl bind.
  match goal with
  | |- context [match ?t with Some _ => _ | None => Ok vocabulary_items end] =>
      destruct t as [w|]; [|left; reflexivity]
  end.
  destruct (nonempty w); [|left; reflexivity].
  destruct (nonempty (extract_definition w parts (para_text p))
            && (3 <? length (extract_definition w parts (para_text p)))) eqn:E;
    [|left; reflexivity].
  right. exists w, parts. split; [reflexivity|].
  apply andb_true_iff in E. destruct E as [_ E]. apply Nat.ltb_lt in E. exact E.
Qed.

Lemma bold_fallback_nonempty (runs : list run) (term : str) :
  bold_fallback runs = Some term -> nonempty term = true.
Proof.
  induction runs as [|r runs IH]; cbn [bold_fallback]; [discriminate|].
  destruct (nonempty (strip (run_text r))) eqn:E; cbn [andb].
  - destruct (_ && _ && _); [intros H; inversion H; subst; exact E | exact IH].
  - exact IH.
Qed.

(** What one paragraph appends, given what the first loop returned. *)
Lemma vocab_paragraph_exact (pres : presentation)
      (vocabulary_items : list VocabularyItem) (p : paragraph)
      (found : option str) (definition_parts : list str) :
  scan_runs (para_runs p) p pres None [] = Ok (found, definition_parts) ->
  vocab_paragraph pres vocabulary_items p
  = Ok (vocabulary_items
        ++ (if negb (nonempty (strip (para_text p))) then []
            else match (match found with
                        | Some w => if nonempty w then Some w
                                    else bold_fallback (para_runs p)
                        | None => bold_fallback (para_runs p)
                        end) with
                 | Some w =>
                     if nonempty w
                        && (nonempty (extract_definition w definition_parts (para_text p))
                            && (3 <? length (extract_definition w definition_parts
                                               (para_text p))))
                     then [(w, extract_definition w definition_parts (para_text p))]
                     else []
                 | None => []
                 end)).
Proof.
  intros Hs. unfold vocab_paragraph. cbv zeta.
  destruct (negb (nonempty (strip (para_text p)))); [rewrite app_nil_r; reflexivity|].
  rewrite Hs. cbn [bind]. cbv beta iota.
  destruct (match found with Some _ => _ | None => _ end) as [w|];
    [|rewrite app_nil_r; reflexivity].
  destruct (nonempty w); cbn [andb]; [|rewrite app_nil_r; reflexivity].
  destruct (_ && _); [reflexivity | rewrite app_nil_r; reflexivity].
Qed.

(** C7.  For every paragraph the vocabulary extractor appends nothing or
    exactly one (term, definition) pair to the slide's list.  With
    [found] and [definition_parts] what the loop over the runs returns
    and [vocab_word] the term then chosen (the emphasis run, else the
    bold fallback), a pair it appends is that term with the definition
    computed for it, which is trimmed and longer than 3 characters; a
    paragraph without a term, or with a term whose computed definition
    trims to 3 characters or fewer, appends nothing; and a non-blank
    paragraph with a term whose computed definition trims to more than 3
    characters appends exactly that pair. *)
Theorem vocab_paragraph_at_most_one (pres : presentation)
        (vocabulary_items : list VocabularyItem) (p : paragraph) :
  exists found definition_parts added,
    let vocab_word :=
      match found with
      | Some w => if nonempty w then Some w else bold_fallback (para_runs p)
      | None => bold_fallback (para_runs p)
      end in
    scan_runs (para_runs p) p pres None [] = Ok (found, definition_parts)
    /\ vocab_paragraph pres vocabulary_items p = Ok (vocabulary_items ++ added)
    /\ length added <= 1
    /\ (forall term definition, In (term, definition) added ->
          vocab_word = Some term
          /\ definition = extract_definition term definition_parts (para_text p)
          /\ strip definition = definition /\ 3 < length definition)
    /\ (vocab_word = None -> added = [])
    /\ (forall term, vocab_word = Some term ->
          length (strip (extract_definition term definition_parts (para_text p))) <= 3 ->
          added = [])
    /\ (forall term, vocab_word = Some term -> strip (para_text p) <> [] ->
          3 < length (strip (extract_definition term definition_parts (para_text p))) ->
          added = [(term, extract_definition term definition_parts (para_text p))]).
Proof.
  destruct (scan_runs_returns (para_runs p) p pres None [])
    as ([found definition_parts] & Hs).
  exists found, definition_parts. eexists. cbv zeta.
  split; [exact Hs|].
  split; [apply (vocab_paragraph_exact pres vocabulary_items p _ _ Hs)|].
  assert (Hne : forall w,
             match found with
             | Some w0 => if nonempty w0 then Some w0 else bold_fallback (para_runs p)
             | None => bold_fallback (para_runs p)
             end = Some w -> nonempty w = true).
  { intros w. destruct found as [w0|]; [|apply bold_fallback_nonempty].
    destruct (nonempty w0) eqn:E; [|apply bold_fallback_nonempty].
    intros H. inversion H; subst. exact E. }
  destruct (match found with Some _ => _ | None => _ end) as [w|].
  - specialize (Hne w eq_refl). rewrite Hne. cbn [andb].
    pose proof (extract_definition_stripped w definition_parts (para_text p)) as Hst.
    set (d := extract_definition w definition_parts (para_text p)) in *.
    destruct (negb (nonempty (strip (para_text p)))) eqn:Eb.
    + split; [simpl; lia|]. split; [intros ? ? []|]. split; [discriminate|].
      split; [reflexivity|]. intros term _ Hblank _. exfalso.
      destruct (strip (para_text p)); [contradiction | discriminate].
    + destruct (nonempty d && (3 <? length d)) eqn:E.
      * apply andb_true_iff in E. destruct E as [_ E]. apply Nat.ltb_lt in E.
        split; [simpl; lia|]. split.
        { intros term definition [H | []]. inversion H; subst. auto. }
        split; [discriminate|]. split.
        { intros term H Hlen. inversion H; subst term. fold d in Hlen.
          rewrite Hst in Hlen. lia. }
        { intros term H _ _. inversion H; subst term. reflexivity. }
      * split; [simpl; lia|]. split; [intros ? ? []|]. split; [discriminate|].
        split; [reflexivity|]. intros term H _ Hlen. inversion H; subst term.
        fold d in Hlen. rewrite Hst in Hlen. exfalso.
        apply andb_false_iff in E. destruct E as [E | E].
        -- destruct d; [simpl in Hlen; lia | discriminate].
        -- apply Nat.ltb_ge in E. lia.
  - destruct (negb (nonempty (strip (para_text p))));
      (split; [simpl; lia|]; split; [intros ? ? []|]; split; [reflexivity|];
       split; [discriminate | discriminate]).
Qed.

Lemma vocab_paragraph_returns (pres : presentation)
      (items : list VocabularyItem) (p : paragraph) :
  exists items', vocab_paragraph pres items p = Ok items'.
Proof.
  destruct (vocab_paragraph_cases pres items p) as [H | (w & parts & H & _)]; eauto.
Qed.

Lemma extract_vocabulary_returns (s : slide) (pres : presentation) :
  exists items, extract_vocabulary_from_slide s pres = Ok items.
Proof.
  unfold extract_vocabulary_from_slide. apply foldM_total. intros a sh.
  unfold vocab_shape. destruct (shape_text_frame sh); [|eauto].
  apply foldM_total. intros; apply vocab_paragraph_returns.
Qed.

(* ================================================================== *)
(** * Per-deck aggregation *)
(* ================================================================== *)

Lemma extend_new_NoDup (items acc : list str) :
  NoDup acc -> NoDup (extend_new acc items).
Proof.
  unfold extend_new. apply fold_left_invariant. intros a x Ha.
  destruct (str_in x a) eqn:E; simpl; [assumption|].
  apply NoDup_snoc; [assumption | apply str_in_not_In; assumption].
Qed.

Lemma extend_new_In (items acc : list str) (g : str) :
  In g (extend_new acc items) <-> In g acc \/ In g items.
Proof.
  unfold extend_new. revert acc. induction items as [|x items IH]; intros acc; simpl.
  - tauto.
  - rewrite IH. destruct (str_in x acc) eqn:E; simpl.
    + apply str_in_In in E. split; [tauto|].
      intros [H | [H | H]]; subst; auto.
    + rewrite in_app_iff. simpl. tauto.
Qed.

Lemma extend_new_guard (acc items : list str) :
  (if nonempty items then extend_new acc items else acc) = extend_new acc items.
Proof. destruct items; reflexivity. Qed.

(** One slide that loads: the new record, field by field. *)
Lemma aggregate_slide_ok (pres : presentation) (rec : DeckRecord) (s : slide) :
  exists rec',
    aggregate_slide pres rec (Ok s) = Ok rec'
    /\ goals rec' = extend_new (goals rec) (extract_session_goals s)
    /\ assessments rec' = extend_new (assessments rec) (extract_assessments s)
    /\ careers rec' = (if nonempty (extract_careers s) then extract_careers s
                       else careers rec).
Proof.
  unfold aggregate_slide. simpl.
  destruct (extract_vocabulary_returns s pres) as (v & ->). simpl.
  eexists. split; [reflexivity|]. simpl.
  rewrite !extend_new_guard. auto.
Qed.

(** The aggregated goal and assessment lists never hold a string twice,
    whatever happens while the deck is read. *)
Lemma aggregate_slide_NoDup (pres : presentation) (rec rec' : DeckRecord)
      (next : result slide) :
  NoDup (goals rec) /\ NoDup (assessments rec) ->
  aggregate_slide pres rec next = Ok rec' ->
  NoDup (goals rec') /\ NoDup (assessments rec').
Proof.
  intros [Hg Ha] H. destruct next as [s|e]; [|discriminate].
  destruct (aggregate_slide_ok pres rec s) as (r & E & Eg & Ea & _).
  rewrite E in H. inversion H; subst r.
  rewrite Eg, Ea. split; apply extend_new_NoDup; assumption.
Qed.

Lemma aggregate_slides_ok (pres : presentation) (ss : list slide) (rec0 : DeckRecord) :
  exists rec,
    foldM (aggregate_slide pres) rec0 (map Ok ss) = Ok rec
    /\ (forall g, In g (goals rec) <->
          In g (goals rec0) \/ exists s, In s ss /\ In g (extract_session_goals s))
    /\ (forall a, In a (assessments rec) <->
          In a (assessments rec0) \/ exists s, In s ss /\ In a (extract_assessments s))
    /\ careers rec = match last_nonempty (map extract_careers ss) with
                     | [] => careers rec0
                     | latest => latest
                     end.
Proof.
  revert rec0. induction ss as [|s ss IH]; intros rec0; cbn [map foldM last_nonempty].
  - exists rec0. split; [reflexivity|].
    repeat split; try tauto; intros [H | (s & [] & _)]; assumption.
  - destruct (aggregate_slide_ok pres rec0 s) as (rec1 & -> & Eg & Ea & Ec).
    cbn [bind].
    destruct (IH rec1) as (rec & -> & Hg & Ha & Hc).
    exists rec. split; [reflexivity|]. split; [|split].
    + intros g. rewrite Hg, Eg, extend_new_In. split.
      * intros [[H | H] | (s' & Hs & H)];
          [left; exact H | right; exists s; simpl; auto
          | right; exists s'; simpl; auto].
      * intros [H | (s' & [<- | Hs] & H)];
          [left; left; exact H | left; right; exact H
          | right; exists s'; auto].
    + intros a. rewrite Ha, Ea, extend_new_In. split.
      * intros [[H | H] | (s' & Hs & H)];
          [left; exact H | right; exists s; simpl; auto
          | right; exists s'; simpl; auto].
      * intros [H | (s' & [<- | Hs] & H)];
          [left; left; exact H | left; right; exact H
          | right; exists s'; auto].
    + rewrite Hc, Ec. destruct (last_nonempty (map extract_careers ss)); [|reflexivity].
      destruct (extract_careers s); reflexivity.
Qed.

(** A deck that opens and whose slides all load. *)
Lemma extract_all_ok (fs : filesystem) (ppt_path : str) (pres : presentation)
      (ss : list slide) :
  fs ppt_path = Ok pres -> pres_slides pres = map Ok ss ->
  exists rec,
    extract_all_content_from_ppt fs ppt_path = Ok rec
    /\ (forall g, In g (goals rec) <->
          exists s, In s ss /\ In g (extract_session_goals s))
    /\ (forall a, In a (assessments rec) <->
          exists s, In s ss /\ In a (extract_assessments s))
    /\ careers rec = last_nonempty (map extract_careers ss).
Proof.
  intros Hfs Hss. unfold extract_all_content_from_ppt. rewrite Hfs. simpl. rewrite Hss.
  destruct (aggregate_slides_ok pres ss empty_record) as (rec & -> & Hg & Ha & Hc).
  exists rec. split; [reflexivity|]. simpl in *. split; [|split].
  - intros g. rewrite Hg. tauto.
  - intros a. rewrite Ha. tauto.
  - rewrite Hc. destruct (last_nonempty _); reflexivity.
Qed.

(** [extract_all_content_from_ppt] returns for every path, and what it
    returns has duplicate-free goals and assessments. *)
Lemma extract_all_returns (fs : filesystem) (ppt_path : str) :
  exists rec,
    extract_all_content_from_ppt fs ppt_path = Ok rec
    /\ NoDup (goals rec) /\ NoDup (assessments rec).
Proof.
  unfold extract_all_content_from_ppt.
  destruct (fs ppt_path) as [pres|e]; simpl.
  2:{ exists empty_record. repeat split; constructor. }
  destruct (foldM (aggregate_slide pres) empty_record (pres_slides pres))
    as [rec|e] eqn:E; simpl.
  - exists rec. split; [reflexivity|].
    apply (@foldM_invariant _ _
             (fun r => NoDup (goals r) /\ NoDup (assessments r))
             (aggregate_slide pres) (pres_slides pres) empty_record rec).
    + intros a b a' Ha Hab. eapply aggregate_slide_NoDup; eassumption.
    + split; constructor.
    + exact E.
  - exists empty_record. repeat split; constructor.
Qed.

Lemma last_nonempty_none (per_slide : list (list str)) :
  Forall (fun items => items = []) per_slide -> last_nonempty per_slide = [].
Proof.
  induction 1 as [|items later H _ IH]; simpl; [reflexivity|].
  rewrite IH. exact H.
Qed.

Lemma last_nonempty_app (earlier later : list (list str)) (items : list str) :
  items <> [] -> Forall (fun x => x = []) later ->
  last_nonempty (earlier ++ items :: later) = items.
Proof.
  intros Hne Hlater. induction earlier as [|x earlier IH]; simpl.
  - rewrite (last_nonempty_none _ Hlater). reflexivity.
  - rewrite IH. destruct items; [contradiction | reflexivity].
Qed.

(** C2.  For every deck that opens and whose slides all load, the careers
    of the deck record are exactly the careers extracted from the last
    slide, in document order, whose extraction is non-empty: a slide with
    an empty extraction leaves the running list unchanged and a later
    non-empty one replaces it wholesale, with no merging. *)
Theorem careers_last_write_wins (fs : filesystem) (ppt_path : str)
        (pres : presentation) (ss : list slide) :
  fs ppt_path = Ok pres -> pres_slides pres = map Ok ss ->
  exists rec,
    extract_all_content_from_ppt fs ppt_path = Ok rec
    /\ careers rec = last_nonempty (map extract_careers ss)
    /\ (forall earlier s later,
          ss = earlier ++ s :: later ->
          extract_careers s <> [] ->
          Forall (fun s' => extract_careers s' = []) later ->
          careers rec = extract_careers s)
    /\ (Forall (fun s => extract_careers s = []) ss -> careers rec = []).
Proof.
  intros Hfs Hss.
  destruct (extract_all_ok fs ppt_path pres ss Hfs Hss) as (rec & H & _ & _ & Hc).
  exists rec. split; [exact H|]. split; [exact Hc|]. split.
  - intros earlier s later -> Hne Hlater. rewrite Hc, map_app. simpl.
    apply last_nonempty_app; [exact Hne|].
    apply Forall_map. exact Hlater.
  - intros Hall. rewrite Hc. apply last_nonempty_none.
    apply Forall_map. exact Hall.
Qed.

(* ================================================================== *)
(** * Failures stay inside the deck that caused them *)
(* ================================================================== *)





Lemma process_file_returns (fs : filesystem) (all_content : list (str * DeckRecord))
      (ppt_file : Path) :
  exists all', process_file fs all_content ppt_file = Ok all'.
Proof.
  unfold process_file.
  destruct (extract_all_returns fs (path_str ppt_file)) as (rec & -> & _). simpl.
  destruct (any_content rec); eauto.
Qed.


(* ================================================================== *)
(** * Goals and assessments: exact-string dedupe, deck by deck *)
(* ================================================================== *)

Lemma once_in_NoDup (l : list str) (x : str) :
  NoDup l -> In x l -> count_occ str_eq_dec l x = 1.
Proof. intros Hl. apply (proj1 (NoDup_count_occ' str_eq_dec l) Hl). Qed.

Lemma any_content_of_goal (rec : DeckRecord) (g : str) :
  In g (goals rec) \/ In g (assessments rec) -> any_content rec = true.
Proof.
  unfold any_content. intros [H | H].
  - destruct (goals rec); [destruct H|]. simpl. rewrite !orb_true_r. reflexivity.
  - destruct (assessments rec); [destruct H|]. simpl. rewrite !orb_true_r. reflexivity.
Qed.

Lemma process_two_decks (fs : filesystem) (fA fB : Path) (recA recB : DeckRecord) :
  str_eqb (path_name fA) (path_name fB) = false ->
  extract_all_content_from_ppt fs (path_str fA) = Ok recA -> any_content recA = true ->
  extract_all_content_from_ppt fs (path_str fB) = Ok recB -> any_content recB = true ->
  exists all_content,
    process_all_ppt_files fs [fA; fB] = Ok all_content
    /\ dict_get all_content (path_name fA) = Some recA
    /\ dict_get all_content (path_name fB) = Some recB.
Proof.
  intros Hne HA HcA HB HcB.
  exists [(path_name fA, recA); (path_name fB, recB)].
  unfold process_all_ppt_files. cbn [nonempty negb foldM].
  unfold process_file. rewrite HA. cbn [bind]. rewrite HcA. cbn [bind dict_set].
  rewrite HB. cbn [bind]. rewrite HcB. cbn [dict_set]. rewrite Hne.
  cbn [dict_set dict_get]. rewrite !str_eqb_refl, Hne. auto.
Qed.

(** A deck that parses, seen through the driver's record for it. *)
Lemma deck_record_facts (fs : filesystem) (f : Path) (pres : presentation)
      (ss : list slide) :
  fs (path_str f) = Ok pres -> pres_slides pres = map Ok ss ->
  exists rec,
    extract_all_content_from_ppt fs (path_str f) = Ok rec
    /\ NoDup (goals rec) /\ NoDup (assessments rec)
    /\ (forall s g, In s ss -> In g (extract_session_goals s) -> In g (goals rec))
    /\ (forall s a, In s ss -> In a (extract_assessments s) -> In a (assessments rec)).
Proof.
  intros Hfs Hss.
  destruct (extract_all_ok fs (path_str f) pres ss Hfs Hss) as (rec & H & Hg & Ha & _).
  destruct (extract_all_returns fs (path_str f)) as (rec' & H' & Ng & Na).
  rewrite H in H'. inversion H'; subst rec'.
  exists rec. repeat split; auto.
  - intros s g Hs Hin. apply Hg. eauto.
  - intros s a Hs Hin. apply Ha. eauto.
Qed.

(** C5.  Every deck record has duplicate-free goals and duplicate-free
    assessments; and when the same string is extracted as a goal (or as
    an assessment) from a slide of each of two decks processed in one
    run, both decks are reported and each record holds it exactly once:
    no dedupe state crosses from one deck to the next. *)
Theorem goals_deduplicated_per_deck (fs : filesystem) :
  (forall ppt_path, exists rec,
      extract_all_content_from_ppt fs ppt_path = Ok rec
      /\ NoDup (goals rec) /\ NoDup (assessments rec))
  /\ (forall fA fB presA presB ssA ssB sA sB item,
        str_eqb (path_name fA) (path_name fB) = false ->
        fs (path_str fA) = Ok presA -> pres_slides presA = map Ok ssA ->
        fs (path_str fB) = Ok presB -> pres_slides presB = map Ok ssB ->
        In sA ssA -> In sB ssB ->
        (In item (extract_session_goals sA) ->
         In item (extract_session_goals sB) ->
         exists all_content recA recB,
           process_all_ppt_files fs [fA; fB] = Ok all_content
           /\ dict_get all_content (path_name fA) = Some recA
           /\ dict_get all_content (path_name fB) = Some recB
           /\ count_occ str_eq_dec (goals recA) item = 1
           /\ count_occ str_eq_dec (goals recB) item = 1)
        /\ (In item (extract_assessments sA) ->
            In item (extract_assessments sB) ->
            exists all_content recA recB,
              process_all_ppt_files fs [fA; fB] = Ok all_content
              /\ dict_get all_content (path_name fA) = Some recA
              /\ dict_get all_content (path_name fB) = Some recB
              /\ count_occ str_eq_dec (assessments recA) item = 1
              /\ count_occ str_eq_dec (assessments recB) item = 1)).
Proof.
  split; [apply extract_all_returns|].
  intros fA fB presA presB ssA ssB sA sB item Hne HA HsA HB HsB HinA HinB.
  destruct (deck_record_facts fs fA presA ssA HA HsA)
    as (recA & EA & NgA & NaA & GA & AA).
  destruct (deck_record_facts fs fB presB ssB HB HsB)
    as (recB & EB & NgB & NaB & GB & AB).
  split; intros IA IB.
  - specialize (GA sA item HinA IA). specialize (GB sB item HinB IB).
    destruct (process_two_decks fs fA fB recA recB Hne EA
                (any_content_of_goal recA item (or_introl GA)) EB
                (any_content_of_goal recB item (or_introl GB)))
      as (all_content & H & DA & DB).
    exists all_content, recA, recB. repeat split; auto using once_in_NoDup.
  - specialize (AA sA item HinA IA). specialize (AB sB item HinB IB).
    destruct (process_two_decks fs fA fB recA recB Hne EA
                (any_content_of_goal recA item (or_intror AA)) EB
                (any_content_of_goal recB item (or_intror AB)))
      as (all_content & H & DA & DB).
    exists all_content, recA, recB. repeat split; auto using once_in_NoDup.
Qed.

End ExtractorFacts.

(* ================================================================== *)
(** * The colour classifier on concrete colours *)
(* ================================================================== *)

(** Every colour with all channels in 201..255 lies in the first range
    [(0, 0, 200, 255, 255, 255)], so the loop over the ranges returns
    before the near-white test is reached. *)
Lemma near_white_is_in_first_range (r g b : Z) :
  (200 < r <= 255)%Z -> (200 < g <= 255)%Z -> (200 < b <= 255)%Z ->
  is_blue_color (RGBColor r g b) = Ok true.
Proof.
  intros Hr Hg Hb.
  unfold is_blue_color, RGBColor, is_blue_color_try, channel.
  cbn [attr_red attr_green attr_blue attr_r attr_g attr_b tuple_items nth_error bind].
  unfold blue_color_ranges. cbn [in_some_range].
  unfold between, and_then. cbn [as_int bind].
  rewrite (proj2 (Z.leb_le 0 r)) by lia. rewrite (proj2 (Z.leb_le r 255)) by lia.
  cbn [bind].
  rewrite (proj2 (Z.leb_le 0 g)) by lia. rewrite (proj2 (Z.leb_le g 255)) by lia.
  cbn [bind].
  rewrite (proj2 (Z.leb_le 200 b)) by lia. rewrite (proj2 (Z.leb_le b 255)) by lia.
  reflexivity.
Qed.

(** C1.  Pure white (255, 255, 255) and the light gray (205, 205, 205)
    have all channels above 200 and mutually within 10, and the
    classifier returns true for both: the range loop returns before the
    exclusion tests run. *)
Theorem white_and_gray_classified_blue :
  is_blue_color (RGBColor 255 255 255) = Ok true
  /\ is_blue_color (RGBColor 205 205 205) = Ok true.
Proof. split; vm_compute; reflexivity. Qed.

(** X3.  A colour outside all six ranges that is near-white (all channels
    above 200) or gray (channels mutually within 10) is classified as
    not blue. *)
Lemma exclusions_outside_ranges (r g b : Z) :
  in_some_range blue_color_ranges (PyInt r) (PyInt g) (PyInt b) = Ok false ->
  (200 < r /\ 200 < g /\ 200 < b)%Z
  \/ (Z.abs (r - g) < 10 /\ Z.abs (g - b) < 10 /\ Z.abs (r - b) < 10)%Z ->
  is_blue_color (RGBColor r g b) = Ok false.
Proof.
  intros Hbox Hex.
  unfold is_blue_color, RGBColor, is_blue_color_try, channel.
  cbn [attr_red attr_green attr_blue attr_r attr_g attr_b tuple_items nth_error bind].
  rewrite Hbox. cbn [bind].
  unfold gt_int, and_then. cbn [as_int bind].
  destruct (200 <? r)%Z eqn:Er; cbn [bind];
    [destruct (200 <? g)%Z eqn:Eg; cbn [bind];
     [destruct (200 <? b)%Z eqn:Eb; cbn [bind]; [reflexivity|] |] |];
    (destruct Hex as [Hw | (H1 & H2 & H3)];
     [apply Z.ltb_ge in Er || apply Z.ltb_ge in Eg || apply Z.ltb_ge in Eb; lia|];
     unfold abs_diff_lt; cbn [as_int bind];
     rewrite (proj2 (Z.ltb_lt _ _) H1); cbn [bind];
     rewrite (proj2 (Z.ltb_lt _ _) H2); cbn [bind];
     rewrite (proj2 (Z.ltb_lt _ _) H3); reflexivity).
Qed.

(** C9.  [is_blue_color] returns a boolean for every argument and never
    raises: [None] gives false, and so does every argument on which a
    channel accessor, or anything else inside the guarded block,
    raises. *)
Theorem is_blue_color_total :
  (forall rgb, exists v, is_blue_color rgb = Ok v)
  /\ is_blue_color RgbNone = Ok false
  /\ (forall o e,
        channel o (attr_red o) 0 (attr_r o) = Raise e
        \/ channel o (attr_green o) 1 (attr_g o) = Raise e
        \/ channel o (attr_blue o) 2 (attr_b o) = Raise e ->
        is_blue_color (RgbObj o) = Ok false)
  /\ (forall o e, is_blue_color_try o = Raise e -> is_blue_color (RgbObj o) = Ok false).
Proof.
  assert (Hbody : forall o e, is_blue_color_try o = Raise e ->
                              is_blue_color (RgbObj o) = Ok false).
  { intros o e H. unfold is_blue_color. rewrite H. reflexivity. }
  repeat apply conj.
  - apply is_blue_color_returns.
  - reflexivity.
  - intros o e H. unfold is_blue_color, is_blue_color_try.
    destruct (channel o (attr_red o) 0 (attr_r o)) as [r|er]; [|reflexivity].
    destruct (channel o (attr_green o) 1 (attr_g o)) as [g|eg]; [|reflexivity].
    destruct (channel o (attr_blue o) 2 (attr_b o)) as [b|eb]; [|reflexivity].
    destruct H as [H | [H | H]]; discriminate.
  - exact Hbody.
Qed.

(* ================================================================== *)
(** * The module acronym *)
(* ================================================================== *)

Lemma split_on_cons (sep : char) (s : str) :
  exists first rest, split_on sep s = first :: rest.
Proof.
  induction s as [|c s (first & rest & IH)]; simpl.
  - eauto.
  - destruct (chr_eqb c sep); [eauto|]. rewrite IH. eauto.
Qed.

(** The result is always the first piece of the split stem: the branch
    returning "UNKN" is never taken. *)
Lemma acronym_is_leading_segment (filename : str) :
  exists rest,
    split_on 95%N (splitext_root filename) = extract_module_acronym filename :: rest.
Proof.
  unfold extract_module_acronym.
  destruct (split_on_cons 95%N (splitext_root filename)) as (first & rest & ->).
  eauto.
Qed.

(** C8.  For a file name that starts with an underscore, and for the
    empty name, there is no text before the first underscore, and the
    function returns the empty string, not "UNKN". *)
Theorem acronym_fallback_unreached :
  extract_module_acronym (py "_notes.pptx") = []
  /\ extract_module_acronym [] = []
  /\ extract_module_acronym (py "MATS_Session1.pptx") = py "MATS".
Proof. repeat split; vm_compute; reflexivity. Qed.

(* ================================================================== *)
(** * List-item cleaning *)
(* ================================================================== *)

(** Past the first position the anchored numbering pattern cannot match,
    so the substitution copies the rest of the line. *)
Lemma sub_numbering_past_start {db : CharDB} (fuel pos : nat) (prev : option char)
      (rest : str) :
  length rest < fuel ->
  sub_loop false list_numbering [] fuel (S pos) prev rest = rest.
Proof.
  revert pos prev rest. induction fuel as [|fuel IH]; intros pos prev rest Hlen; [lia|].
  cbn [sub_loop]. unfold list_numbering at 1. cbn [rmatch assert_that m_pos Nat.eqb].
  destruct rest as [|c rest]; [reflexivity|].
  f_equal. apply IH. simpl in Hlen. lia.
Qed.

Lemma sub_numbering_no_match {db : CharDB} (text : str) :
  re_match false list_numbering text = None ->
  re_sub false list_numbering [] text = text.
Proof.
  unfold re_match, match_at, re_sub. cbn [sub_loop].
  destruct (rmatch false list_numbering _ Some); [discriminate|]. intros _.
  destruct text as [|c text]; [reflexivity|].
  f_equal. apply sub_numbering_past_start. simpl. lia.
Qed.

(** C6.  Cleaning a list item removes a leading number only together
    with the period or closing parenthesis and the whitespace after it:
    a line on which [^\d+[\.\)]\s+] does not match keeps its digits and
    only loses leading bullet glyphs and outer whitespace.  So
    "2. Wear goggles" becomes "Wear goggles" and "2 safety goggles" is
    kept verbatim, in [_clean_list_item] and in the goal lines of
    [extract_session_goals] alike. *)
Theorem clean_list_item_preserves_quantities :
  (forall (db : CharDB) (text : str),
      re_match false list_numbering text = None ->
      _clean_list_item text = strip (lstrip_chars bullet_glyphs text))
  /\ _clean_list_item (py "2. Wear goggles") = py "Wear goggles"
  /\ _clean_list_item (py "2 safety goggles") = py "2 safety goggles"
  /\ _clean_list_item (py "3) Label the diagram") = py "Label the diagram"
  /\ _clean_list_item (BULLET :: py " Identify rock types") = py "Identify rock types"
  /\ extract_session_goals
       (text_slide ["In today's session, you will:"; "2. Wear goggles";
                    "2 safety goggles"]%string)
     = [py "Wear goggles"; py "2 safety goggles"].
Proof.
  split.
  - intros db text H. unfold _clean_list_item. cbv zeta.
    rewrite (sub_numbering_no_match text H). reflexivity.
  - repeat split; vm_compute; reflexivity.
Qed.

(* ================================================================== *)
(** * The vocabulary example *)
(* ================================================================== *)

(** C4.  The paragraph with the runs [bold+blue "Osmosis"] and
    [plain ": the movement of water."] and the full text
    "Osmosis: the movement of water." yields exactly one item, the pair
    ("Osmosis", "the movement of water."), for every emphasis colour of
    the first run and every deck theme: the term is the bold blue run and
    the definition is the trimmed capture group of the case-insensitive
    search for [Osmosis\s*[:-]?\s*(.+)] in the full text. *)
Theorem osmosis_yields_one_item (pres : presentation) (r g b : Z) :
  is_blue_color (RGBColor r g b) = Ok true ->
  extract_vocabulary_from_slide
    {| slide_shapes :=
         [ {| shape_text_frame :=
                Some {| tf_paragraphs := [osmosis_paragraph r g b] |} |} ] |}
    pres
  = Ok [(py "Osmosis", py "the movement of water.")]
  /\ exists m,
       re_search true (definition_pattern (py "Osmosis"))
                 (py "Osmosis: the movement of water.") = Some m
       /\ strip (group1 (py "Osmosis: the movement of water.") m)
          = py "the movement of water.".
Proof.
  intros Hblue. split.
  - unfold extract_vocabulary_from_slide.
    cbn [slide_shapes foldM vocab_shape shape_text_frame tf_paragraphs].
    unfold vocab_paragraph, osmosis_paragraph.
    cbn [para_text para_runs scan_runs run_text run_bold run_color].
    unfold get_effective_color.
    cbn [run_color para_color color_layer]. rewrite Hblue.
    destruct (is_blue_color_returns (resolve_theme_color_to_rgb pres 1 0)) as (v & ->).
    destruct v; vm_compute; reflexivity.
  - eexists. split; vm_compute; reflexivity.
Qed.

(* ================================================================== *)
(** * The theorems at the sample inputs *)
(* ================================================================== *)

(** Slide 5 yields [Geologist], slide 9 yields [Geologist; Hydrologist],
    and the deck record holds slide 9's list. *)
Lemma careers_override_example :
  extract_careers (nth 4 careers_slides blank_slide) = [py "Geologist"]
  /\ extract_careers (nth 8 careers_slides blank_slide)
     = [py "Geologist"; py "Hydrologist"]
  /\ exists rec,
       extract_all_content_from_ppt two_decks (py "in/careers.pptx") = Ok rec
       /\ careers rec = [py "Geologist"; py "Hydrologist"].
Proof.
  split; [vm_compute; reflexivity|]. split; [vm_compute; reflexivity|].
  destruct (careers_last_write_wins two_decks (py "in/careers.pptx")
              (deck_of careers_slides) careers_slides eq_refl eq_refl)
    as (rec & H & Hc & _).
  exists rec. split; [exact H|]. rewrite Hc. vm_compute. reflexivity.
Defined.

(** "Identify rock types" appears on two slides of the first deck and on
    one slide of the second, and once in each deck's record. *)
Lemma goal_in_two_decks_example :
  exists all_content recA recB,
    process_all_ppt_files two_decks [GEOL_1; GEOL_2] = Ok all_content
    /\ dict_get all_content (py "GEOL_1.pptx") = Some recA
    /\ dict_get all_content (py "GEOL_2.pptx") = Some recB
    /\ count_occ str_eq_dec (goals recA) (py "Identify rock types") = 1
    /\ count_occ str_eq_dec (goals recB) (py "Identify rock types") = 1.
Proof.
  assert (Hgoal : In (py "Identify rock types") (extract_session_goals goal_slide)).
  { vm_compute. left. reflexivity. }
  exact (proj1 (proj2 (goals_deduplicated_per_deck two_decks)
                  GEOL_1 GEOL_2
                  (deck_of [goal_slide; goal_slide]) (deck_of [blank_slide; goal_slide])
                  [goal_slide; goal_slide] [blank_slide; goal_slide]
                  goal_slide goal_slide (py "Identify rock types")
                  eq_refl eq_refl eq_refl eq_refl eq_refl
                  (or_introl eq_refl) (or_intror (or_introl eq_refl)))
               Hgoal Hgoal).
Defined.

Lemma osmosis_example :
  extract_vocabulary_from_slide
    {| slide_shapes :=
         [ {| shape_text_frame :=
                Some {| tf_paragraphs := [osmosis_paragraph 0 112 192] |} |} ] |}
    (deck_of [])
  = Ok [(py "Osmosis", py "the movement of water.")].
Proof.
  exact (proj1 (osmosis_yields_one_item (deck_of []) 0 112 192 eq_refl)).
Defined.

(** The Osmosis paragraph appends its pair; with the definition "ab" the
    same term appends nothing. *)
Lemma osmosis_paragraph_example :
  vocab_paragraph (deck_of []) [] (osmosis_paragraph 0 112 192)
  = Ok [(py "Osmosis", py "the movement of water.")]
  /\ vocab_paragraph (deck_of []) [] short_definition_paragraph = Ok [].
Proof.
  split.
  - destruct (vocab_paragraph_at_most_one (deck_of []) [] (osmosis_paragraph 0 112 192))
      as (found & parts & added & H).
    cbv zeta in H. destruct H as (Hs & Hv & _ & _ & _ & _ & Hlong).
    vm_compute in Hs. injection Hs as <- <-.
    rewrite Hv, (Hlong (py "Osmosis")).
    + vm_compute. reflexivity.
    + vm_compute. reflexivity.
    + vm_compute. discriminate.
    + vm_compute. lia.
  - destruct (vocab_paragraph_at_most_one (deck_of []) [] short_definition_paragraph)
      as (found & parts & added & H).
    cbv zeta in H. destruct H as (Hs & Hv & _ & _ & _ & Hshort & _).
    vm_compute in Hs. injection Hs as <- <-.
    rewrite Hv, (Hshort (py "Osmosis")).
    + reflexivity.
    + vm_compute. reflexivity.
    + vm_compute. lia.
Defined.

Lemma quantity_line_example :
  _clean_list_item (py "2 safety goggles")
  = strip (lstrip_chars bullet_glyphs (py "2 safety goggles")).
Proof.
  exact (proj1 clean_list_item_preserves_quantities BasicLatin
               (py "2 safety goggles") eq_refl).
Defined.

Lemma featureless_object_example :
  is_blue_color (RgbObj featureless) = Ok false.
Proof.
  exact (proj1 (proj2 (proj2 is_blue_color_total)) featureless AttributeError
               (or_introl eq_refl)).
Defined.

(* ================================================================== *)
(** * More on the colour classifier and the colour resolver *)
(* ================================================================== *)

Lemma between_int (lo z hi : Z) :
  between lo (PyInt z) hi = Ok ((lo <=? z)%Z && (z <=? hi)%Z).
Proof. unfold between. simpl. destruct (lo <=? z)%Z; reflexivity. Qed.

Lemma and_then_ok (x y : bool) : (Ok x &&& Ok y) = Ok (x && y).
Proof. destruct x; reflexivity. Qed.

(** On three integers the range loop is a plain disjunction. *)
Lemma in_some_range_ints (ranges : list (Z * Z * Z * Z * Z * Z)) (r g b : Z) :
  in_some_range ranges (PyInt r) (PyInt g) (PyInt b)
  = Ok (existsb (fun '(r_min, g_min, b_min, r_max, g_max, b_max) =>
                   ((r_min <=? r) && (r <=? r_max)
                    && ((g_min <=? g) && (g <=? g_max))
                    && ((b_min <=? b) && (b <=? b_max)))%Z) ranges).
Proof.
  induction ranges as [|[[[[[r0 g0] b0] r1] g1] b1] ranges IH]; [reflexivity|].
  cbn [in_some_range existsb]. rewrite !between_int, !and_then_ok. cbn [bind].
  destruct (_ && _ && _); [reflexivity | exact IH].
Qed.

(** The classifier on an integer triple, as one boolean expression. *)
Lemma is_blue_color_ints (r g b : Z) :
  is_blue_color (RGBColor r g b)
  = Ok (existsb (fun '(r_min, g_min, b_min, r_max, g_max, b_max) =>
                   ((r_min <=? r) && (r <=? r_max)
                    && ((g_min <=? g) && (g <=? g_max))
                    && ((b_min <=? b) && (b <=? b_max)))%Z) blue_color_ranges
        || negb ((200 <? r) && (200 <? g) && (200 <? b))%Z
           && negb ((Z.abs (r - g) <? 10) && (Z.abs (g - b) <? 10)
                    && (Z.abs (r - b) <? 10))%Z
           && ((r + 50 <? b) && (g + 50 <? b) && (120 <? b)
               || (150 <? g) && (150 <? b) && (r <? 80)
               || (180 <? b) && (r + 30 <? b) && (g + 30 <? b))%Z).
Proof.
  unfold is_blue_color, RGBColor, is_blue_color_try, channel.
  cbn [attr_red attr_green attr_blue attr_r attr_g attr_b tuple_items nth_error bind].
  rewrite in_some_range_ints. cbn [bind].
  destruct (existsb _ blue_color_ranges); [reflexivity|].
  unfold gt_int, lt_int, gt_plus, abs_diff_lt. cbn [as_int bind].
  rewrite !and_then_ok. cbn [bind try_except orb].
  destruct (_ && _ && _); [reflexivity|]. cbn [bind negb andb].
  destruct (_ && _ && _); [reflexivity|]. cbn [bind negb andb].
  destruct (_ && _ && _); [reflexivity|]. cbn [bind orb].
  destruct (_ && _ && _); [reflexivity|]. cbn [bind orb].
  destruct (_ && _ && _); reflexivity.
Qed.

(** X1.  A colour whose blue channel is at most 120 is never classified as
    blue, whatever its red and green channels (any integers). *)
Theorem low_blue_channel_is_never_blue (r g b : Z) :
  (b <= 120)%Z -> is_blue_color (RGBColor r g b) = Ok false.
Proof.
  intros Hb. rewrite is_blue_color_ints. f_equal.
  unfold blue_color_ranges. cbn [existsb].
  repeat match goal with
         | |- context [(?c <=? b)%Z] =>
             replace (c <=? b)%Z with false by (symmetry; apply Z.leb_gt; lia)
         | |- context [(?c <? b)%Z] =>
             replace (c <? b)%Z with false by (symmetry; apply Z.ltb_ge; lia)
         end.
  rewrite ?andb_false_r, ?andb_false_l, ?orb_false_r. cbn.
  rewrite ?andb_false_r. reflexivity.
Qed.

(** X2.  A strongly blue colour (blue above 120 and more than 50 above red
    and green) that is not near-white is classified as blue. *)
Theorem dominant_blue_is_blue (r g b : Z) :
  (r + 50 < b)%Z -> (g + 50 < b)%Z -> (120 < b)%Z ->
  ~ (200 < r /\ 200 < g /\ 200 < b)%Z ->
  is_blue_color (RGBColor r g b) = Ok true.
Proof.
  intros Hr Hg Hb Hw. rewrite is_blue_color_ints. f_equal.
  destruct (existsb _ blue_color_ranges); [reflexivity|]. cbn [orb].
  replace ((200 <? r) && (200 <? g) && (200 <? b))%Z with false.
  2:{ symmetry. apply not_true_is_false. rewrite !andb_true_iff, !Z.ltb_lt. tauto. }
  replace (Z.abs (g - b) <? 10)%Z with false by (symmetry; apply Z.ltb_ge; lia).
  rewrite andb_false_r. cbn [negb andb].
  rewrite (proj2 (Z.ltb_lt _ _) Hr), (proj2 (Z.ltb_lt _ _) Hg), (proj2 (Z.ltb_lt _ _) Hb).
  reflexivity.
Qed.

(** X4.  A theme lookup never fails loudly: when the theme cannot be
    reached, or the index is outside the twelve slots 1..12, the resolver
    returns [None], whatever the brightness. *)
Theorem theme_lookup_failure_gives_none (pres : presentation)
        (theme_color_idx brightness : Z) :
  (exists e, pres_clrScheme pres = Raise e)
  \/ (theme_color_idx < 1 \/ 12 < theme_color_idx)%Z ->
  resolve_theme_color_to_rgb pres theme_color_idx brightness = RgbNone.
Proof.
  intros [(e & H) | H]; unfold resolve_theme_color_to_rgb.
  - rewrite H. reflexivity.
  - destruct (pres_clrScheme pres) as [cs|e]; [|reflexivity].
    cbn [bind try_except]. unfold theme_color_map. cbn [assoc_Z].
    repeat match goal with
           | |- context [Z.eqb theme_color_idx ?k] =>
               replace (Z.eqb theme_color_idx k) with false
                 by (symmetry; apply Z.eqb_neq; lia)
           end.
    reflexivity.
Qed.

(** X5.  With no explicit RGB on the run or on its paragraph and a theme
    that cannot be read, the effective colour is [None] and the run is
    not emphasis-coloured. *)
Theorem unresolved_colour_is_not_emphasis (r : run) (p : paragraph)
        (pres : presentation) (e : exn) :
  pres_clrScheme pres = Raise e ->
  (forall x y z, run_color r <> ExplicitRGB x y z) ->
  (forall x y z, para_color p <> ExplicitRGB x y z) ->
  get_effective_color r p pres = RgbNone
  /\ is_blue_color (get_effective_color r p pres) = Ok false.
Proof.
  intros He Hr Hp.
  assert (Hnone : forall idx br, resolve_theme_color_to_rgb pres idx br = RgbNone).
  { intros idx br. unfold resolve_theme_color_to_rgb. rewrite He. reflexivity. }
  assert (Hlayer : forall c, (forall x y z, c <> ExplicitRGB x y z) ->
                             color_layer pres c = None).
  { intros [|x y z|idx br] Hc; cbn [color_layer]; [reflexivity | |].
    - exfalso. exact (Hc x y z eq_refl).
    - destruct (Z.eqb idx 0); [reflexivity|]. rewrite Hnone. reflexivity. }
  assert (E : get_effective_color r p pres = RgbNone).
  { unfold get_effective_color. rewrite (Hlayer _ Hr), (Hlayer _ Hp). apply Hnone. }
  split; [exact E | rewrite E; reflexivity].
Qed.

(* ================================================================== *)
(** * More on the term exclusion filter *)
(* ================================================================== *)

(** X6.  The empty string and every text that trims to at most two
    characters is excluded from vocabulary, whatever the character
    tables. *)
Theorem short_text_is_excluded {db : CharDB} (text : str) :
  length (strip text) <= 2 -> should_exclude_vocab text = true.
Proof.
  intros H. unfold should_exclude_vocab.
  destruct (negb (nonempty text)); [reflexivity|]. cbv zeta.
  destruct (length (_normalize_phrase (strip text)) <=? 2); [reflexivity|].
  rewrite (proj2 (Nat.leb_le _ _) H). reflexivity.
Qed.

(* ================================================================== *)
(** * The matcher only moves forward *)
(* ================================================================== *)

Lemma moved_forward_refl (st : mstate) : moved_forward st st.
Proof. exists []. simpl. split; [reflexivity | lia]. Qed.

Lemma moved_forward_trans (a b c : mstate) :
  moved_forward a b -> moved_forward b c -> moved_forward a c.
Proof.
  intros (x & Hx & Px) (y & Hy & Py). exists (x ++ y).
  rewrite Hx, Hy, <- app_assoc, length_app. split; [reflexivity | lia].
Qed.

Lemma moved_forward_advance (st : mstate) (c : char) (rest : str) :
  m_rest st = c :: rest -> moved_forward st (advance st c rest).
Proof. intros H. exists [c]. simpl. split; [exact H | lia]. Qed.

Lemma moved_forward_set_group (st st' : mstate) (span : nat * nat) :
  moved_forward st st' -> moved_forward st (set_group st' span).
Proof. intros (x & Hx & Px). exists x. simpl. auto. Qed.

Section MatcherFacts.
Context {db : CharDB}.
Variable ignorecase : bool.

(** What a matcher step must satisfy: a result comes from the
    continuation, called further on in the subject. *)
Let forward (body : mstate -> cont -> option mstate) : Prop :=
  forall st k res, body st k = Some res ->
    exists st', moved_forward st st' /\ k st' = Some res.

Lemma one_forward (ok : char -> bool) : forward (one ok).
Proof.
  intros st k res. unfold one.
  destruct (m_rest st) as [|c rest] eqn:E; [discriminate|].
  destruct (ok c); [|discriminate]. intros H.
  exists (advance st c rest). split; [apply moved_forward_advance; exact E | exact H].
Qed.

Lemma assert_forward (ok : mstate -> bool) :
  forward (fun st k => assert_that (ok st) st k).
Proof.
  intros st k res. unfold assert_that. destruct (ok st); [|discriminate].
  intros H. exists st. split; [apply moved_forward_refl | exact H].
Qed.

Lemma star_loop_forward (body : mstate -> cont -> option mstate) (fuel : nat) :
  forward body -> forward (star_loop body fuel).
Proof.
  intros Hbody. induction fuel as [|fuel IH]; intros st k res; cbn [star_loop].
  - intros H. exists st. split; [apply moved_forward_refl | exact H].
  - destruct (body st _) as [r|] eqn:E.
    + intros H. inversion H; subst r. apply Hbody in E.
      destruct E as (st1 & F1 & E).
      destruct (Nat.eqb (m_pos st1) (m_pos st)); [discriminate|].
      apply IH in E. destruct E as (st2 & F2 & E).
      exists st2. split; [eapply moved_forward_trans; eassumption | exact E].
    + intros H. exists st. split; [apply moved_forward_refl | exact H].
Qed.

Lemma rmatch_forward (r : regex) : forward (rmatch ignorecase r).
Proof.
  induction r; cbn [rmatch]; try apply one_forward.
  - intros st k res H. exists st. split; [apply moved_forward_refl | exact H].
  - apply (assert_forward (fun st => Nat.eqb (m_pos st) 0)).
  - apply (assert_forward at_eol).
  - apply (assert_forward at_word_boundary).
  - intros st k res H. apply IHr1 in H. destruct H as (st1 & F1 & H).
    apply IHr2 in H. destruct H as (st2 & F2 & H).
    exists st2. split; [eapply moved_forward_trans; eassumption | exact H].
  - intros st k res H. destruct (rmatch ignorecase r st k) as [x|] eqn:E.
    + inversion H; subst x. apply IHr in E. exact E.
    + exists st. split; [apply moved_forward_refl | exact H].
  - intros st k res. apply star_loop_forward. exact IHr.
  - intros st k res H. apply IHr in H. destruct H as (st1 & F1 & H).
    apply (star_loop_forward _ _ IHr) in H. destruct H as (st2 & F2 & H).
    exists st2. split; [eapply moved_forward_trans; eassumption | exact H].
  - intros st k res H. apply IHr in H. destruct H as (st1 & F1 & H).
    exists (set_group st1 (m_pos st, m_pos st1)).
    split; [apply moved_forward_set_group; exact F1 | exact H].
Qed.

(** Greedy iteration with the final continuation [Some] always returns. *)
Lemma star_loop_some (body : mstate -> cont -> option mstate) (fuel : nat)
      (st : mstate) :
  star_loop body fuel st Some <> None.
Proof.
  destruct fuel; cbn [star_loop]; [discriminate|].
  destruct (body st _); discriminate.
Qed.

End MatcherFacts.

(* ================================================================== *)
(** * The alphabet of normalized phrases *)
(* ================================================================== *)

Section NormalizeFacts.
Context {db : CharDB}.
Variable items : list cls_item.

Let in_class (c : char) : bool := existsb (item_matches false c) items.
Let outside : regex := Plus (Class true items).

Lemma outside_match (st st' : mstate) :
  rmatch false outside st Some = Some st' ->
  moved_forward st st' /\ m_pos st < m_pos st'.
Proof.
  unfold outside. cbn [rmatch]. unfold one.
  destruct (m_rest st) as [|c rest] eqn:E; [discriminate|].
  destruct (xorb true _); [|discriminate]. intros H.
  apply (star_loop_forward _ _ (rmatch_forward false (Class true items))) in H.
  destruct H as (st1 & F & H). inversion H; subst st1.
  split.
  - eapply moved_forward_trans; [apply moved_forward_advance; exact E | exact F].
  - destruct F as (x & _ & P). rewrite P. simpl. lia.
Qed.

Lemma outside_no_match (st : mstate) :
  rmatch false outside st Some = None ->
  match m_rest st with
  | c :: _ => in_class c = true
  | [] => True
  end.
Proof.
  unfold outside, in_class. cbn [rmatch]. unfold one.
  destruct (m_rest st) as [|c rest]; [trivial|].
  destruct (existsb (item_matches false c) items); [reflexivity|].
  cbn [xorb]. intros H. exfalso. revert H. apply star_loop_some.
Qed.

(** Replacing every run of characters outside the class by one space
    leaves only spaces and characters of the class. *)
Lemma sub_outside_alphabet (fuel pos : nat) (prev : option char) (rest : str) :
  length rest < fuel ->
  Forall (fun c => c = 32%N \/ in_class c = true)
         (sub_loop false outside (py " ") fuel pos prev rest).
Proof.
  revert pos prev rest. induction fuel as [|fuel IH]; intros pos prev rest Hlen; [lia|].
  cbn [sub_loop].
  destruct (rmatch false outside _ Some) as [st'|] eqn:E.
  - apply outside_match in E. destruct E as ((x & Hx & Px) & Hpos).
    cbn [m_pos m_rest] in *.
    replace (Nat.eqb (m_pos st') pos) with false
      by (symmetry; apply Nat.eqb_neq; lia).
    change (py " ") with [32%N]. cbn [app]. constructor; [left; reflexivity|].
    apply IH. rewrite Hx, length_app in Hlen. lia.
  - apply outside_no_match in E. cbn [m_rest] in E.
    destruct rest as [|c rest]; [constructor|].
    constructor; [right; exact E|]. apply IH. simpl in Hlen. lia.
Qed.

End NormalizeFacts.

Lemma Forall_lstrip (P : char -> Prop) (s : str) : Forall P s -> Forall P (lstrip s).
Proof.
  induction 1 as [|c s Hc Hs IH]; simpl; [constructor|].
  destruct (isspace c); [exact IH | constructor; assumption].
Qed.

Lemma Forall_strip (P : char -> Prop) (s : str) : Forall P s -> Forall P (strip s).
Proof.
  intros H. unfold strip, rstrip.
  apply Forall_rev, Forall_lstrip, Forall_rev, Forall_lstrip. exact H.
Qed.

(** X7.  A normalized phrase consists of lower-case ASCII letters, ASCII
    digits and spaces only and has no outer whitespace, whatever the
    input and the character tables. *)
Theorem normalized_phrase_alphabet {db : CharDB} (text : str) :
  Forall (fun c => normalized_char c = true) (_normalize_phrase text)
  /\ strip (_normalize_phrase text) = _normalize_phrase text.
Proof.
  split; [|apply strip_fixed].
  unfold _normalize_phrase. apply Forall_strip. unfold re_sub.
  eapply Forall_impl;
    [|apply (sub_outside_alphabet [CRange 97%N 122%N; CRange 48%N 57%N]); lia].
  intros c [-> | H]; [reflexivity|].
  unfold normalized_char. cbn [existsb item_matches] in H.
  rewrite orb_false_r in H. rewrite <- orb_assoc, H. apply orb_true_r.
Qed.

(* ================================================================== *)
(** * Where vocabulary terms come from *)
(* ================================================================== *)

Section VocabularyFacts.
Context {db : CharDB}.

(** A run that can be a term: bold, with text that passes the filter. *)
Let candidate (p : paragraph) (term : str) : Prop :=
  exists r, In r (para_runs p) /\ term = strip (run_text r)
            /\ run_bold r = Some true /\ should_exclude_vocab term = false.

Lemma is_true_bold (b : option bool) : is_true b = true -> b = Some true.
Proof. destruct b as [[|]|]; simpl; congruence. Qed.

Lemma scan_runs_term (runs : list run) (p : paragraph) (pres : presentation)
      (w : option str) (parts : list str) (w' : option str) (parts' : list str) :
  scan_runs runs p pres w parts = Ok (w', parts') ->
  w' = w
  \/ exists r, In r runs /\ w' = Some (strip (run_text r))
               /\ run_bold r = Some true
               /\ should_exclude_vocab (strip (run_text r)) = false
               /\ is_blue_color (get_effective_color r p pres) = Ok true.
Proof.
  revert w parts. induction runs as [|r runs IH]; intros w parts; cbn [scan_runs].
  - intros H. inversion H. left; reflexivity.
  - assert (Hlater : forall w0 parts0,
               scan_runs runs p pres w0 parts0 = Ok (w', parts') ->
               w0 = w ->
               w' = w \/ exists r0, In r0 (r :: runs) /\ w' = Some (strip (run_text r0))
                 /\ run_bold r0 = Some true
                 /\ should_exclude_vocab (strip (run_text r0)) = false
                 /\ is_blue_color (get_effective_color r0 p pres) = Ok true).
    { intros w0 parts0 H ->. destruct (IH _ _ H) as [E | (r0 & Hin & E)];
        [left; exact E | right; exists r0; split; [right; exact Hin | exact E]]. }
    destruct (negb (nonempty (strip (run_text r)))); [intros H; eapply Hlater; eauto|].
    destruct (is_blue_color (get_effective_color r p pres)) as [is_blue|e] eqn:Eb;
      cbn [bind]; [|discriminate].
    destruct (is_blue && is_true (run_bold r) && _ && _) eqn:Eq.
    + intros H. apply andb_true_iff in Eq. destruct Eq as [Eq Hex].
      apply andb_true_iff in Eq. destruct Eq as [Eq _].
      apply andb_true_iff in Eq. destruct Eq as [-> Hbold].
      apply negb_true_iff in Hex. apply is_true_bold in Hbold.
      destruct (IH _ _ H) as [E | (r0 & Hin & E)].
      * right. exists r. split; [left; reflexivity|]. auto.
      * right. exists r0. split; [right; exact Hin | exact E].
    + destruct w as [w|]; [|intros H; eapply Hlater; eauto].
      destruct (nonempty w && _); intros H; eapply Hlater; eauto.
Qed.

Lemma bold_fallback_term (runs : list run) (term : str) :
  bold_fallback runs = Some term ->
  exists r, In r runs /\ term = strip (run_text r)
            /\ run_bold r = Some true /\ should_exclude_vocab term = false.
Proof.
  induction runs as [|r runs IH]; cbn [bold_fallback]; [discriminate|].
  destruct (_ && _ && _ && _) eqn:E.
  - intros H. inversion H; subst term.
    apply andb_true_iff in E. destruct E as [E _].
    apply andb_true_iff in E. destruct E as [E Hex].
    apply andb_true_iff in E. destruct E as [_ Hbold].
    exists r. split; [left; reflexivity|].
    split; [reflexivity|]. split; [apply is_true_bold; exact Hbold|].
    apply negb_true_iff. exact Hex.
  - intros H. destruct (IH H) as (r0 & Hin & E0).
    exists r0. split; [right; exact Hin | exact E0].
Qed.

Lemma vocab_paragraph_sources (pres : presentation) (items items' : list VocabularyItem)
      (p : paragraph) :
  vocab_paragraph pres items p = Ok items' ->
  forall term definition, In (term, definition) items' ->
    In (term, definition) items
    \/ candidate p term /\ 3 < length definition.
Proof.
  unfold vocab_paragraph. cbv zeta.
  destruct (negb (nonempty (strip (para_text p))));
    [intros H; inversion H; subst; auto|].
  destruct (scan_runs (para_runs p) p pres None []) as [[found parts]|e] eqn:Es;
    cbn [bind]; [|discriminate].
  assert (Hterm : forall w,
             match found with
             | Some w0 => if nonempty w0 then Some w0 else bold_fallback (para_runs p)
             | None => bold_fallback (para_runs p)
             end = Some w -> candidate p w).
  { intros w Hw. apply scan_runs_term in Es.
    destruct found as [w0|]; [|apply bold_fallback_term; exact Hw].
    destruct (nonempty w0); [|apply bold_fallback_term; exact Hw].
    inversion Hw; subst w0.
    destruct Es as [E | (r & Hin & E & Hbold & Hex & _)]; [discriminate|].
    inversion E; subst w. exists r. auto. }
  destruct (match found with Some _ => _ | None => _ end) as [w|];
    [|intros H; inversion H; subst; auto].
  specialize (Hterm w eq_refl).
  destruct (nonempty w); [|intros H; inversion H; subst; auto].
  destruct (nonempty _ && (3 <? _)) eqn:E; intros H; inversion H; subst; auto.
  intros term definition Hin. apply in_app_or in Hin.
  destruct Hin as [Hin | [Hin | []]]; [auto|]. inversion Hin; subst.
  right. split; [exact Hterm|].
  apply andb_true_iff in E. destruct E as [_ E]. apply Nat.ltb_lt. exact E.
Qed.

(** X8.  Every vocabulary item of a slide has as its term the trimmed
    text of a bold run, of a paragraph of a text frame of that slide, on
    which the exclusion filter returns false; and its definition is
    longer than 3 characters.  A slide without bold runs has none. *)
Theorem vocabulary_terms_are_bold_runs (s : slide) (pres : presentation)
        (items : list VocabularyItem) :
  extract_vocabulary_from_slide s pres = Ok items ->
  forall term definition, In (term, definition) items ->
    exists sh tf p r,
      In sh (slide_shapes s) /\ shape_text_frame sh = Some tf
      /\ In p (tf_paragraphs tf) /\ In r (para_runs p)
      /\ term = strip (run_text r) /\ run_bold r = Some true
      /\ should_exclude_vocab term = false
      /\ 3 < length definition.
Proof.
  intros H term definition Hin.
  set (good := fun acc : list VocabularyItem =>
         forall t d, In (t, d) acc ->
           exists sh tf p r,
             In sh (slide_shapes s) /\ shape_text_frame sh = Some tf
             /\ In p (tf_paragraphs tf) /\ In r (para_runs p)
             /\ t = strip (run_text r) /\ run_bold r = Some true
             /\ should_exclude_vocab t = false /\ 3 < length d).
  assert (Hshape : forall shapes acc acc',
             incl shapes (slide_shapes s) -> good acc ->
             foldM (vocab_shape pres) acc shapes = Ok acc' -> good acc').
  { induction shapes as [|sh shapes IH]; intros acc acc' Hincl Hacc; cbn [foldM].
    - intros E. inversion E; subst. exact Hacc.
    - destruct (vocab_shape pres acc sh) as [acc1|e] eqn:E1; cbn [bind]; [|discriminate].
      apply IH; [intros x Hx; apply Hincl; right; exact Hx|].
      unfold vocab_shape in E1.
      destruct (shape_text_frame sh) as [tf|] eqn:Etf;
        [|inversion E1; subst; exact Hacc].
      assert (Hpara : forall paras a a',
                 incl paras (tf_paragraphs tf) -> good a ->
                 foldM (vocab_paragraph pres) a paras = Ok a' -> good a').
      { induction paras as [|p paras IHp]; intros a a' Hinc Ha; cbn [foldM].
        - intros E. inversion E; subst. exact Ha.
        - destruct (vocab_paragraph pres a p) as [a1|e] eqn:Ep; cbn [bind];
            [|discriminate].
          apply IHp; [intros x Hx; apply Hinc; right; exact Hx|].
          intros t d Htd.
          destruct (vocab_paragraph_sources pres a a1 p Ep t d Htd)
            as [Hold | ((r & Hr & Et & Hbold & Hex) & Hlen)]; [apply Ha; exact Hold|].
          exists sh, tf, p, r.
          split; [apply Hincl; left; reflexivity|]. split; [exact Etf|].
          split; [apply Hinc; left; reflexivity|]. auto. }
      eapply Hpara; [apply incl_refl | exact Hacc | exact E1]. }
  apply (Hshape (slide_shapes s) [] items (incl_refl _)); [intros t d []| exact H | exact Hin].
Qed.

(** Once a term is set the first loop never changes it. *)
Lemma scan_runs_keeps_term (runs : list run) (p : paragraph) (pres : presentation)
      (w : str) (parts : list str) :
  nonempty w = true ->
  exists parts', scan_runs runs p pres (Some w) parts = Ok (Some w, parts').
Proof.
  intros Hw. revert parts. induction runs as [|r runs IH]; intros parts; cbn [scan_runs].
  - eauto.
  - destruct (negb (nonempty (strip (run_text r)))); [apply IH|].
    destruct (is_blue_color_returns (get_effective_color r p pres)) as (v & ->).
    cbn [bind]. rewrite Hw. cbn [negb].
    rewrite (andb_false_r (v && is_true (run_bold r))). cbn [andb].
    destruct (nonempty (strip (run_text r))); apply IH.
Qed.

(** X9.  The first run that is emphasis-coloured, bold, non-blank and not
    excluded decides the term: if the runs before it are blank, no later
    run, whatever its formatting, can replace it, and any item the
    paragraph yields carries that run's trimmed text as its term. *)
Theorem first_emphasis_run_is_the_term (pres : presentation)
        (items added : list VocabularyItem) (p : paragraph)
        (blank : list run) (r : run) (later : list run) :
  para_runs p = blank ++ r :: later ->
  Forall (fun r0 => strip (run_text r0) = []) blank ->
  strip (run_text r) <> [] ->
  is_blue_color (get_effective_color r p pres) = Ok true ->
  run_bold r = Some true ->
  should_exclude_vocab (strip (run_text r)) = false ->
  vocab_paragraph pres items p = Ok (items ++ added) ->
  forall term definition, In (term, definition) added -> term = strip (run_text r).
Proof.
  intros Hruns Hblank Htext Hblue Hbold Hex.
  assert (Hne : nonempty (strip (run_text r)) = true)
    by (destruct (strip (run_text r)); [contradiction | reflexivity]).
  assert (Hscan : exists parts,
             scan_runs (para_runs p) p pres None [] = Ok (Some (strip (run_text r)), parts)).
  { rewrite Hruns. clear Hruns. induction Hblank as [|r0 blank H0 _ IH]; cbn [app scan_runs].
    - rewrite Hne. cbn [negb]. rewrite Hblue. cbn [bind]. rewrite Hbold, Hex.
      cbn [is_true andb negb]. apply scan_runs_keeps_term. exact Hne.
    - rewrite H0. cbn [nonempty negb]. exact IH. }
  destruct Hscan as (parts & Hscan).
  unfold vocab_paragraph. cbv zeta.
  destruct (negb (nonempty (strip (para_text p)))).
  - intros H. inversion H as [E]. apply (f_equal (@length _)) in E.
    rewrite length_app in E. destruct added; [intros ? ? []| simpl in E; lia].
  - rewrite Hscan. cbn [bind]. cbv beta iota. rewrite Hne. cbv beta iota.
    rewrite Hne.
    destruct (nonempty _ && (3 <? _)); intros H; inversion H as [E].
    + apply app_inv_head in E. subst added.
      intros term definition [Hin | []]. inversion Hin. reflexivity.
    + apply (f_equal (@length _)) in E.
      rewrite length_app in E. destruct added; [intros ? ? []| simpl in E; lia].
Qed.

End VocabularyFacts.

(* ================================================================== *)
(** * More on the section extractors *)
(* ================================================================== *)

Section ExtractorInvariants.
Context {db : CharDB}.

(** Any property of the result list that survives
    [append_if_new _ (_clean_list_item _)] holds of what the four
    extractors return. *)
Section AnyInvariant.
Variable P : list str -> Prop.
Hypothesis P_append :
  forall acc line, P acc -> P (append_if_new acc (_clean_list_item line)).

Ltac keep_P :=
  repeat match goal with
         | |- P (if ?c then _ else _) => destruct c
         | |- P (fst (if ?c then _ else _)) => destruct c
         | |- P (append_if_new _ _) => apply P_append
         end; auto.

Lemma goals_shape_keeps (acc : list str) (sh : shape) :
  P acc -> P (goals_shape acc sh).
Proof.
  intros H. unfold goals_shape.
  destruct (has_text sh) as [[tf full_text]|]; [|assumption].
  destruct (first_search goal_trigger_patterns full_text).
  - apply fold_left_invariant; [|assumption].
    intros a b Ha. unfold goals_after_trigger. cbv zeta. keep_P.
  - apply fold_left_invariant;
      [intros a b Ha; unfold goals_paragraph; cbv zeta; keep_P|].
    apply fold_left_invariant; [|assumption].
    intros a b Ha. unfold goals_standalone. cbv zeta. keep_P.
Qed.

Lemma assessments_shape_keeps (acc : list str) (sh : shape) :
  P acc -> P (assessments_shape acc sh).
Proof.
  intros H. unfold assessments_shape.
  destruct (has_text sh) as [[tf full_text]|]; [|assumption].
  destruct (first_search assessment_trigger_patterns full_text);
    (apply fold_left_invariant; [|assumption]); intros a b Ha.
  - unfold assessments_after_trigger. cbv zeta. keep_P.
  - unfold assessments_standalone. cbv zeta. keep_P.
Qed.

Lemma careers_shape_keeps (acc : list str) (sh : shape) :
  P acc -> P (careers_shape acc sh).
Proof.
  intros H. unfold careers_shape.
  destruct (has_text sh) as [[tf full_text]|]; [|assumption].
  destruct (any_search career_trigger_patterns full_text); [|assumption].
  assert (Hline : forall st line, P (fst st) -> P (fst (careers_line st line))).
  { intros [a f] line Ha. unfold careers_line. simpl in Ha.
    repeat match goal with
           | |- P (fst (if ?c then _ else _)) => destruct c
           end; simpl; auto. }
  apply (fold_left_invariant (fun st => P (fst st))); [exact Hline|]. simpl.
  apply (fold_left_invariant (fun st => P (fst st))); [exact Hline | assumption].
Qed.

Lemma materials_shape_keeps (acc : list str) (sh : shape) :
  P acc -> P (materials_shape acc sh).
Proof.
  intros H. unfold materials_shape.
  destruct (has_text sh) as [[tf full_text]|]; [|assumption].
  destruct (any_search material_trigger_patterns full_text); [|assumption].
  assert (Hline : forall st line, P (fst st) -> P (fst (materials_line st line))).
  { intros [a f] line Ha. unfold materials_line. simpl in Ha.
    repeat match goal with
           | |- P (fst (if ?c then _ else _)) => destruct c
           end; simpl; auto. }
  apply (fold_left_invariant (fun st => P (fst st))); [exact Hline|]. simpl.
  apply (fold_left_invariant (fun st => P (fst st))); [exact Hline | assumption].
Qed.

Lemma extractors_keep (s : slide) :
  P [] ->
  P (extract_session_goals s) /\ P (extract_assessments s)
  /\ P (extract_careers s) /\ P (extract_session_materials s).
Proof.
  intros H0.
  unfold extract_session_goals, extract_assessments, extract_careers,
    extract_session_materials.
  repeat split.
  - destruct (negb _); [exact H0|].
    apply fold_left_invariant; [apply goals_shape_keeps | exact H0].
  - destruct (negb _); [exact H0|].
    apply fold_left_invariant; [apply assessments_shape_keeps | exact H0].
  - apply fold_left_invariant; [apply careers_shape_keeps | exact H0].
  - apply fold_left_invariant; [apply materials_shape_keeps | exact H0].
Qed.

End AnyInvariant.

Lemma clean_list_item_stripped (text : str) :
  strip (_clean_list_item text) = _clean_list_item text.
Proof. unfold _clean_list_item. cbv zeta. apply strip_fixed. Qed.

(** X10.  Every item the four section extractors return is a non-empty
    string without outer whitespace. *)
Theorem extracted_items_are_trimmed_and_nonempty (s : slide) (item : str) :
  In item (extract_session_goals s) \/ In item (extract_assessments s)
  \/ In item (extract_careers s) \/ In item (extract_session_materials s) ->
  item <> [] /\ strip item = item.
Proof.
  set (good := fun acc : list str =>
                 Forall (fun x => x <> [] /\ strip x = x) acc).
  assert (Hgood : forall acc line,
             good acc -> good (append_if_new acc (_clean_list_item line))).
  { intros acc line Hacc. unfold append_if_new.
    destruct (nonempty (_clean_list_item line)) eqn:E; [|exact Hacc].
    destruct (negb _); [|exact Hacc]. cbn [andb].
    apply Forall_app. split; [exact Hacc|]. constructor; [|constructor].
    split; [|apply clean_list_item_stripped].
    intros H. rewrite H in E. discriminate. }
  destruct (extractors_keep good Hgood s (Forall_nil _)) as (Hg & Ha & Hc & Hm).
  unfold good in *. rewrite Forall_forall in Hg, Ha, Hc, Hm.
  intros [H | [H | [H | H]]]; auto.
Qed.

Lemma fold_left_unchanged {A B : Type} (f : A -> B -> A) (l : list B) (a : A) :
  (forall b, In b l -> f a b = a) -> fold_left f l a = a.
Proof.
  induction l as [|b l IH]; simpl; intros H; [reflexivity|].
  rewrite (H b (or_introl eq_refl)). apply IH. intros b' Hb'. apply H. right; exact Hb'.
Qed.

(** X11.  A slide on which no text frame matches any trigger pattern of
    a category yields nothing for that category. *)
Theorem no_trigger_no_items (s : slide) :
  (slide_has_trigger goal_trigger_patterns s = false ->
   extract_session_goals s = [])
  /\ (slide_has_trigger assessment_trigger_patterns s = false ->
      extract_assessments s = [])
  /\ (slide_has_trigger career_trigger_patterns s = false ->
      extract_careers s = [])
  /\ (slide_has_trigger material_trigger_patterns s = false ->
      extract_session_materials s = []).
Proof.
  assert (Hshape : forall patterns sh,
             slide_has_trigger patterns s = false -> In sh (slide_shapes s) ->
             match has_text sh with
             | Some (_, full_text) => any_search patterns full_text = false
             | None => True
             end).
  { intros patterns sh H Hin. unfold slide_has_trigger in H.
    destruct (has_text sh) as [[tf full_text]|] eqn:E; [|trivial].
    destruct (any_search patterns full_text) eqn:Ea; [|reflexivity].
    rewrite <- H. symmetry. apply existsb_exists. exists sh.
    rewrite E. auto. }
  repeat split; intros H.
  - unfold extract_session_goals. rewrite H. reflexivity.
  - unfold extract_assessments. rewrite H. reflexivity.
  - unfold extract_careers. apply fold_left_unchanged. intros sh Hin.
    specialize (Hshape _ sh H Hin). unfold careers_shape.
    destruct (has_text sh) as [[tf full_text]|]; [|reflexivity].
    rewrite Hshape. reflexivity.
  - unfold extract_session_materials. apply fold_left_unchanged. intros sh Hin.
    specialize (Hshape _ sh H Hin). unfold materials_shape.
    destruct (has_text sh) as [[tf full_text]|]; [|reflexivity].
    rewrite Hshape. reflexivity.
Qed.

End ExtractorInvariants.

(* ================================================================== *)
(** * The paragraph pass of careers and materials *)
(* ================================================================== *)

Lemma split_on_no_sep (sep : char) (t : str) :
  chr_in sep t = false -> split_on sep t = [t].
Proof.
  induction t as [|c t IH]; simpl; [reflexivity|].
  unfold chr_eqb at 1. rewrite N.eqb_sym. fold (chr_eqb c sep).
  destruct (chr_eqb c sep); simpl; [discriminate|].
  intros H. rewrite (IH H). reflexivity.
Qed.

Lemma split_on_app_sep (sep : char) (t rest : str) :
  chr_in sep t = false ->
  split_on sep (t ++ sep :: rest) = t :: split_on sep rest.
Proof.
  induction t as [|c t IH]; simpl.
  - intros _. unfold chr_eqb. rewrite N.eqb_refl. reflexivity.
  - unfold chr_eqb at 1. rewrite N.eqb_sym. fold (chr_eqb c sep).
    destruct (chr_eqb c sep); simpl; [discriminate|].
    intros H. rewrite (IH H). reflexivity.
Qed.

(** Splitting the joined lines gives the lines back. *)
Lemma split_on_join (sep : char) (texts : list str) :
  texts <> [] -> Forall (fun t => chr_in sep t = false) texts ->
  split_on sep (join [sep] texts) = texts.
Proof.
  intros Hne Hall. induction Hall as [|t texts Ht Hall IH]; [contradiction|].
  destruct texts as [|t' texts].
  - simpl. apply split_on_no_sep. exact Ht.
  - change (join [sep] (t :: t' :: texts)) with (t ++ sep :: join [sep] (t' :: texts)).
    rewrite (split_on_app_sep sep t _ Ht). f_equal. apply IH. discriminate.
Qed.

Section SecondPass.

(** A line handler in the style of [careers_line]: the flag it leaves does
    not depend on the list, and the list is kept or extended by
    [append_if_new] with an item that does not depend on the list. *)
Variable step : list str * bool -> str -> list str * bool.
Hypothesis step_shape :
  forall flag line, exists flag',
    (forall acc, step (acc, flag) line = (acc, flag'))
    \/ (exists item, forall acc, step (acc, flag) line = (append_if_new acc item, flag')).

Lemma append_if_new_incl (acc : list str) (item : str) :
  incl acc (append_if_new acc item).
Proof.
  unfold append_if_new. destruct (_ && _); [|apply incl_refl].
  apply incl_appl, incl_refl.
Qed.

Lemma append_if_new_present (acc : list str) (item : str) :
  nonempty item = true -> In item (append_if_new acc item).
Proof.
  intros H. unfold append_if_new. rewrite H. cbn [andb].
  destruct (str_in item acc) eqn:E; cbn [negb].
  - apply str_in_In. exact E.
  - apply in_or_app. right. left. reflexivity.
Qed.

Lemma append_if_new_absorbed (acc : list str) (item : str) :
  (nonempty item = true -> In item acc) -> append_if_new acc item = acc.
Proof.
  intros H. unfold append_if_new. destruct (nonempty item); [|reflexivity].
  rewrite (proj2 (str_in_In item acc) (H eq_refl)). reflexivity.
Qed.

Lemma pass_grows (lines : list str) (acc : list str) (flag : bool) :
  incl acc (fst (fold_left step lines (acc, flag))).
Proof.
  revert acc flag. induction lines as [|l lines IH]; intros acc flag; simpl;
    [apply incl_refl|].
  destruct (step_shape flag l) as (flag' & [H | (item & H)]); rewrite H.
  - apply IH.
  - eapply incl_tran; [apply append_if_new_incl | apply IH].
Qed.

(** Running the pass again over a list that already holds its result
    changes nothing. *)
Lemma pass_absorbed (lines : list str) (acc acc2 : list str) (flag : bool) :
  incl (fst (fold_left step lines (acc, flag))) acc2 ->
  fst (fold_left step lines (acc2, flag)) = acc2.
Proof.
  revert acc flag. induction lines as [|l lines IH]; intros acc flag; simpl;
    [reflexivity|].
  destruct (step_shape flag l) as (flag' & [H | (item & H)]); rewrite !H.
  - apply IH.
  - intros Hincl. rewrite append_if_new_absorbed; [eapply IH; exact Hincl|].
    intros Hne. apply Hincl. apply pass_grows. apply append_if_new_present. exact Hne.
Qed.

Lemma second_pass_adds_nothing (lines : list str) (acc : list str) :
  fst (fold_left step lines (fst (fold_left step lines (acc, false)), false))
  = fst (fold_left step lines (acc, false)).
Proof. eapply pass_absorbed. apply incl_refl. Qed.

End SecondPass.

Section SecondPassOfTheSource.
Context {db : CharDB}.

Lemma careers_line_shape (flag : bool) (line : str) :
  exists flag',
    (forall acc, careers_line (acc, flag) line = (acc, flag'))
    \/ (exists item, forall acc,
          careers_line (acc, flag) line = (append_if_new acc item, flag')).
Proof.
  unfold careers_line.
  destruct (any_search career_trigger_patterns line); [exists true; left; reflexivity|].
  destruct (flag && nonempty line); [|exists flag; left; reflexivity].
  destruct (looks_like_career line); [|exists flag; left; reflexivity].
  exists flag. right. exists (_clean_list_item line). reflexivity.
Qed.

Lemma materials_line_shape (flag : bool) (line : str) :
  exists flag',
    (forall acc, materials_line (acc, flag) line = (acc, flag'))
    \/ (exists item, forall acc,
          materials_line (acc, flag) line = (append_if_new acc item, flag')).
Proof.
  unfold materials_line.
  destruct (any_search material_trigger_patterns line); [exists true; left; reflexivity|].
  destruct (flag && nonempty line); [|exists flag; left; reflexivity].
  destruct (looks_like_material line); [|exists flag; left; reflexivity].
  exists flag. right. exists (_clean_list_item line). reflexivity.
Qed.

Lemma lines_are_paragraphs (tf : text_frame) :
  tf_paragraphs tf <> [] ->
  Forall (fun p => chr_in LF (para_text p) = false) (tf_paragraphs tf) ->
  map strip (split_on LF (tf_text tf))
  = map (fun p => strip (para_text p)) (tf_paragraphs tf).
Proof.
  intros Hne Hall. unfold tf_text. rewrite split_on_join.
  - apply map_map.
  - destruct (tf_paragraphs tf); [contradiction | discriminate].
  - apply Forall_map. exact Hall.
Qed.

(** X12.  In a text frame none of whose paragraphs contains a newline the
    lines of the frame are its paragraphs, and the paragraph-by-paragraph
    fallback of [extract_careers] and of [extract_session_materials] adds
    nothing to what the line-by-line pass found: the shape contributes
    the result of a single pass over its paragraphs. *)
Theorem paragraph_fallback_adds_nothing (acc : list str) (sh : shape)
        (tf : text_frame) :
  shape_text_frame sh = Some tf ->
  Forall (fun p => chr_in LF (para_text p) = false) (tf_paragraphs tf) ->
  careers_shape acc sh
  = (if any_search career_trigger_patterns (tf_text tf)
     then fst (fold_left careers_line
                 (map (fun p => strip (para_text p)) (tf_paragraphs tf))
                 (acc, false))
     else acc)
  /\ materials_shape acc sh
     = (if any_search material_trigger_patterns (tf_text tf)
        then fst (fold_left materials_line
                    (map (fun p => strip (para_text p)) (tf_paragraphs tf))
                    (acc, false))
        else acc).
Proof.
  intros Htf Hall. unfold careers_shape, materials_shape, has_text. rewrite Htf.
  destruct (tf_paragraphs tf) as [|p0 ps] eqn:Eps.
  - unfold tf_text. rewrite Eps. cbn [map join nonempty fold_left fst].
    split; [destruct (any_search career_trigger_patterns []); reflexivity
           | destruct (any_search material_trigger_patterns []); reflexivity].
  - rewrite <- Eps in *.
    assert (Hne : tf_paragraphs tf <> []) by (rewrite Eps; discriminate).
    destruct (nonempty (tf_text tf)) eqn:Et.
    + cbv zeta. rewrite (lines_are_paragraphs tf Hne Hall). split.
      * destruct (any_search career_trigger_patterns (tf_text tf)); [|reflexivity].
        apply (second_pass_adds_nothing careers_line careers_line_shape).
      * destruct (any_search material_trigger_patterns (tf_text tf)); [|reflexivity].
        apply (second_pass_adds_nothing materials_line materials_line_shape).
    + assert (Hlines := lines_are_paragraphs tf Hne Hall).
      destruct (tf_text tf); [|discriminate].
      change (map strip (split_on LF [])) with [([] : str)] in Hlines.
      rewrite <- Hlines. cbn [fold_left].
      split.
      * destruct (any_search career_trigger_patterns []) eqn:E; [|reflexivity].
        unfold careers_line. rewrite E. reflexivity.
      * destruct (any_search material_trigger_patterns []) eqn:E; [|reflexivity].
        unfold materials_line. rewrite E. reflexivity.
Qed.

End SecondPassOfTheSource.

(* ================================================================== *)
(** * More on the per-deck aggregator *)
(* ================================================================== *)

Section AggregatorFacts.
Context {db : CharDB}.

Lemma aggregate_slide_appends (pres : presentation) (rec : DeckRecord) (s : slide) :
  exists rec' vocab_items,
    extract_vocabulary_from_slide s pres = Ok vocab_items
    /\ aggregate_slide pres rec (Ok s) = Ok rec'
    /\ vocabulary rec' = vocabulary rec ++ vocab_items
    /\ materials rec' = materials rec ++ extract_session_materials s
    /\ goals rec' = extend_new (goals rec) (extract_session_goals s).
Proof.
  unfold aggregate_slide. cbn [bind].
  destruct (extract_vocabulary_returns s pres) as (v & Ev). rewrite Ev. cbn [bind].
  eexists. exists v. split; [reflexivity|]. split; [reflexivity|].
  cbn [vocabulary materials goals]. rewrite extend_new_guard.
  destruct v; destruct (extract_session_materials s);
    cbn [nonempty]; rewrite ?app_nil_r; auto.
Qed.

Lemma aggregate_slides_append (pres : presentation) (ss : list slide)
      (rec0 : DeckRecord) :
  exists rec per_slide,
    foldM (aggregate_slide pres) rec0 (map Ok ss) = Ok rec
    /\ Forall2 (fun s v => extract_vocabulary_from_slide s pres = Ok v) ss per_slide
    /\ vocabulary rec = vocabulary rec0 ++ concat per_slide
    /\ materials rec = materials rec0 ++ concat (map extract_session_materials ss)
    /\ goals rec = extend_new (goals rec0) (concat (map extract_session_goals ss)).
Proof.
  revert rec0. induction ss as [|s ss IH]; intros rec0; cbn [map foldM concat].
  - exists rec0, []. rewrite !app_nil_r. repeat split; constructor.
  - destruct (aggregate_slide_appends pres rec0 s) as (rec1 & v & Ev & -> & Hv & Hm & Hg).
    cbn [bind]. destruct (IH rec1) as (rec & vs & -> & Hall & Hvs & Hms & Hgs).
    exists rec, (v :: vs). split; [reflexivity|]. split; [constructor; assumption|].
    cbn [concat]. rewrite Hvs, Hv, Hms, Hm, Hgs, Hg, <- !app_assoc.
    repeat split. unfold extend_new. rewrite fold_left_app. reflexivity.
Qed.

(** X13.  For a deck that opens and whose slides all load, the vocabulary
    of the record is the concatenation, in slide order, of the per-slide
    vocabulary lists, and the materials are the concatenation of the
    per-slide materials: nothing is dropped or deduplicated across
    slides. *)
Theorem vocabulary_and_materials_are_concatenated (fs : filesystem)
        (ppt_path : str) (pres : presentation) (ss : list slide) :
  fs ppt_path = Ok pres -> pres_slides pres = map Ok ss ->
  exists rec per_slide,
    extract_all_content_from_ppt fs ppt_path = Ok rec
    /\ Forall2 (fun s v => extract_vocabulary_from_slide s pres = Ok v) ss per_slide
    /\ vocabulary rec = concat per_slide
    /\ materials rec = concat (map extract_session_materials ss).
Proof.
  intros Hfs Hss. unfold extract_all_content_from_ppt. rewrite Hfs. cbn [bind].
  rewrite Hss.
  destruct (aggregate_slides_append pres ss empty_record)
    as (rec & vs & -> & Hall & Hv & Hm & _).
  exists rec, vs. cbn [try_except]. auto.
Qed.

Lemma extend_new_prefix (items acc : list str) :
  exists more, extend_new acc items = acc ++ more.
Proof.
  unfold extend_new. revert acc. induction items as [|x items IH]; intros acc; simpl.
  - exists []. rewrite app_nil_r. reflexivity.
  - destruct (str_in x acc); simpl; [apply IH|].
    destruct (IH (acc ++ [x])) as (more & ->).
    exists (x :: more). rewrite <- app_assoc. reflexivity.
Qed.

Lemma extend_new_fresh (items acc : list str) :
  NoDup (acc ++ items) -> extend_new acc items = acc ++ items.
Proof.
  unfold extend_new. revert acc. induction items as [|x items IH]; intros acc H; simpl.
  - rewrite app_nil_r. reflexivity.
  - assert (Hx : str_in x acc = false).
    { apply str_in_not_In. intros Hin.
      apply NoDup_remove_2 in H. apply H. apply in_or_app. left. exact Hin. }
    rewrite Hx. simpl.
    replace (acc ++ x :: items) with ((acc ++ [x]) ++ items)
      by (rewrite <- app_assoc; reflexivity).
    apply IH. rewrite <- app_assoc. exact H.
Qed.

(** X14.  Goals keep first-seen order: the goals extracted from the first
    slide head the deck's goal list, in their order, and the later slides
    only append behind them. *)
Theorem first_slide_goals_come_first (fs : filesystem) (ppt_path : str)
        (pres : presentation) (s : slide) (ss : list slide) :
  fs ppt_path = Ok pres -> pres_slides pres = map Ok (s :: ss) ->
  exists rec more,
    extract_all_content_from_ppt fs ppt_path = Ok rec
    /\ goals rec = extract_session_goals s ++ more.
Proof.
  intros Hfs Hss. unfold extract_all_content_from_ppt. rewrite Hfs. cbn [bind].
  rewrite Hss.
  destruct (aggregate_slides_append pres (s :: ss) empty_record)
    as (rec & vs & -> & _ & _ & _ & Hg).
  cbn [try_except]. cbn [map concat goals empty_record] in Hg.
  unfold extend_new in Hg. rewrite fold_left_app in Hg.
  fold (extend_new [] (extract_session_goals s)) in Hg.
  rewrite (extend_new_fresh (extract_session_goals s) []) in Hg.
  2:{ cbn [app].
      apply (extractors_keep (@NoDup str)
               (fun acc line => append_if_new_NoDup acc (_clean_list_item line))
               s (NoDup_nil _)). }
  cbn [app] in Hg.
  destruct (extend_new_prefix (concat (map extract_session_goals ss))
              (extract_session_goals s)) as (more & Hmore).
  unfold extend_new in Hmore. rewrite Hmore in Hg.
  exists rec, more. split; [reflexivity | exact Hg].
Qed.

End AggregatorFacts.

(* ================================================================== *)
(** * More on the per-corpus driver *)
(* ================================================================== *)

Lemma dict_set_In_key {V : Type} (d : list (str * V)) (key name : str) (value v : V) :
  In (name, v) (dict_set d key value) ->
  name = key /\ v = value \/ In (name, v) d.
Proof.
  induction d as [|[k0 v0] d IH]; simpl.
  - intros [H | []]. inversion H; auto.
  - destruct (str_eqb k0 key) eqn:E; simpl.
    + apply str_eqb_eq in E. subst k0.
      intros [H | H]; [inversion H; auto | auto].
    + intros [H | H]; [auto | destruct (IH H); auto].
Qed.

Lemma dict_set_keys {V : Type} (d : list (str * V)) (key : str) (value : V) :
  map fst (dict_set d key value)
  = if str_in key (map fst d) then map fst d else map fst d ++ [key].
Proof.
  induction d as [|[k0 v0] d IH]; simpl; [reflexivity|].
  destruct (str_eqb k0 key) eqn:E; simpl.
  - apply str_eqb_eq in E. subst k0. rewrite str_eqb_refl. reflexivity.
  - assert (E' : str_eqb key k0 = false).
    { destruct (str_eqb key k0) eqn:E2; [|reflexivity].
      apply str_eqb_eq in E2. subst. rewrite str_eqb_refl in E. discriminate. }
    rewrite E'. simpl. rewrite IH. unfold str_in. destruct (existsb _ _); reflexivity.
Qed.

Lemma dict_set_fresh {V : Type} (d : list (str * V)) (key : str) (value : V) :
  ~ In key (map fst d) -> dict_set d key value = d ++ [(key, value)].
Proof.
  induction d as [|[k0 v0] d IH]; simpl; [reflexivity|]. intros H.
  destruct (str_eqb k0 key) eqn:E.
  - apply str_eqb_eq in E. exfalso. apply H. left. exact E.
  - rewrite IH; [reflexivity|]. intros Hin. apply H. right. exact Hin.
Qed.

Section DriverFacts.
Context {db : CharDB}.

Lemma process_files_facts (fs : filesystem) (files : list Path)
      (d all_content : list (str * DeckRecord)) :
  foldM (process_file fs) d files = Ok all_content ->
  (NoDup (map fst d) -> NoDup (map fst all_content))
  /\ (forall name, In name (map fst d) -> In name (map fst all_content))
  /\ (forall name rec, In (name, rec) all_content ->
        In (name, rec) d
        \/ exists f, In f files /\ path_name f = name
                     /\ extract_all_content_from_ppt fs (path_str f) = Ok rec)
  /\ (forall f rec, In f files ->
        extract_all_content_from_ppt fs (path_str f) = Ok rec ->
        any_content rec = true -> In (path_name f) (map fst all_content)).
Proof.
  revert d. induction files as [|f files IH]; intros d; cbn [foldM].
  - intros H. inversion H; subst. repeat split; auto. intros f rec [].
  - unfold process_file at 1.
    destruct (extract_all_content_from_ppt fs (path_str f)) as [content|e] eqn:Ef;
      cbn [bind]; [|discriminate].
    destruct (any_content content) eqn:Ec; intros H;
      destruct (IH _ H) as (Hnd & Hkeys & Hsrc & Hall).
    + assert (Hk : forall name, In name (map fst d)
                    -> In name (map fst (dict_set d (path_name f) content))).
      { intros name Hin. rewrite dict_set_keys.
        destruct (str_in _ _); [exact Hin | apply in_or_app; left; exact Hin]. }
      assert (Hnew : In (path_name f) (map fst (dict_set d (path_name f) content))).
      { rewrite dict_set_keys. destruct (str_in _ _) eqn:E.
        - apply str_in_In. exact E.
        - apply in_or_app. right. left. reflexivity. }
      repeat split.
      * intros Hd. apply Hnd. rewrite dict_set_keys.
        destruct (str_in _ _) eqn:E; [exact Hd|].
        apply NoDup_snoc; [exact Hd | apply str_in_not_In; exact E].
      * intros name Hin. apply Hkeys, Hk, Hin.
      * intros name rec Hin. destruct (Hsrc name rec Hin) as [Hd | (f0 & Hf0 & E0)].
        -- apply dict_set_In_key in Hd. destruct Hd as [[-> ->] | Hd]; [|left; exact Hd].
           right. exists f. split; [left; reflexivity|]. auto.
        -- right. exists f0. split; [right; exact Hf0 | exact E0].
      * intros f0 rec [<- | Hin] E0 Hc; [apply Hkeys, Hnew | eapply Hall; eassumption].
    + repeat split; auto.
      * intros name rec Hin. destruct (Hsrc name rec Hin) as [Hd | (f0 & Hf0 & E0)];
          [left; exact Hd | right; exists f0; split; [right; exact Hf0 | exact E0]].
      * intros f0 rec [<- | Hin] E0 Hc; [|eapply Hall; eassumption].
        rewrite Ef in E0. inversion E0; subst. congruence.
Qed.

(** X15.  In the dictionary the driver returns no file name occurs
    twice, every entry is the extraction result of a listed file of that
    name, and every listed file with some content has an entry. *)
Theorem reported_records_come_from_listed_files (fs : filesystem)
        (ppt_files : list Path) (all_content : list (str * DeckRecord)) :
  process_all_ppt_files fs ppt_files = Ok all_content ->
  NoDup (map fst all_content)
  /\ (forall name rec, In (name, rec) all_content ->
        exists f, In f ppt_files /\ path_name f = name
                  /\ extract_all_content_from_ppt fs (path_str f) = Ok rec)
  /\ (forall f rec, In f ppt_files ->
        extract_all_content_from_ppt fs (path_str f) = Ok rec ->
        any_content rec = true -> In (path_name f) (map fst all_content)).
Proof.
  unfold process_all_ppt_files. destruct ppt_files as [|f files]; cbn [nonempty negb].
  - intros H. inversion H; subst. repeat split; [constructor | intros ? ? [] | intros ? ? []].
  - intros H. destruct (process_files_facts fs _ _ _ H) as (Hnd & _ & Hsrc & Hall).
    repeat split.
    + apply Hnd. constructor.
    + intros name rec Hin. destruct (Hsrc name rec Hin) as [[] | Hf]. exact Hf.
    + exact Hall.
Qed.

Lemma process_files_in_order (fs : filesystem) (files : list Path)
      (d : list (str * DeckRecord)) :
  NoDup (map fst d ++ map path_name files) ->
  foldM (process_file fs) d files
  = Ok (d ++ flat_map
               (fun f =>
                  match extract_all_content_from_ppt fs (path_str f) with
                  | Ok rec => if any_content rec then [(path_name f, rec)] else []
                  | Raise _ => []
                  end) files).
Proof.
  revert d. induction files as [|f files IH]; intros d Hnd; cbn [foldM flat_map map].
  - rewrite app_nil_r. reflexivity.
  - unfold process_file at 1.
    destruct (extract_all_returns fs (path_str f)) as (rec & -> & _). cbn [bind].
    cbn [map] in Hnd.
    destruct (any_content rec); cbn [bind].
    + rewrite dict_set_fresh.
      2:{ apply NoDup_remove_2 in Hnd. intros Hin. apply Hnd.
          apply in_or_app. left. exact Hin. }
      rewrite IH.
      * rewrite <- app_assoc. reflexivity.
      * rewrite map_app. cbn [map fst]. rewrite <- app_assoc. exact Hnd.
    + cbn [app]. apply IH. apply NoDup_remove_1 in Hnd. exact Hnd.
Qed.

(** X16.  When the listed files have distinct names the driver reports,
    in listing order, exactly the files whose record has some content,
    each with its own record. *)
Theorem decks_are_reported_in_listing_order (fs : filesystem)
        (ppt_files : list Path) :
  NoDup (map path_name ppt_files) ->
  process_all_ppt_files fs ppt_files
  = Ok (flat_map
          (fun f =>
             match extract_all_content_from_ppt fs (path_str f) with
             | Ok rec => if any_content rec then [(path_name f, rec)] else []
             | Raise _ => []
             end) ppt_files).
Proof.
  intros Hnd. unfold process_all_ppt_files.
  destruct ppt_files as [|f files]; [reflexivity|]. cbn [nonempty negb].
  apply (process_files_in_order fs (f :: files) []). exact Hnd.
Qed.

End DriverFacts.

(* ================================================================== *)
(** * Failures stay inside the deck that caused them: the driver *)
(* ================================================================== *)

Section FailureContainment.
Context {db : CharDB}.


End FailureContainment.

(* ================================================================== *)
(** * More on the module acronym *)
(* ================================================================== *)

Lemma split_on_first (sep : char) (s first : str) (rest : list str) :
  split_on sep s = first :: rest ->
  chr_in sep first = false /\ exists tail, s = first ++ tail.
Proof.
  revert first rest. induction s as [|c s IH]; intros first rest; simpl.
  - intros H. inversion H. split; [reflexivity | exists []; reflexivity].
  - destruct (chr_eqb c sep) eqn:E.
    + intros H. inversion H. split; [reflexivity | exists (c :: s); reflexivity].
    + destruct (split_on sep s) as [|w ws] eqn:Es.
      * intros H. inversion H. simpl. unfold chr_eqb in *. rewrite N.eqb_sym, E.
        split; [reflexivity | exists s; reflexivity].
      * intros H. injection H as <- <-.
        destruct (IH w ws eq_refl) as (Hw & tail & ->).
        split; [|exists tail; reflexivity].
        simpl. unfold chr_eqb in *. rewrite N.eqb_sym, E. exact Hw.
Qed.

Lemma splitext_root_prefix (p : str) : exists ext, p = splitext_root p ++ ext.
Proof.
  unfold splitext_root. cbv zeta.
  destruct (_ <? _)%Z; [|exists []; rewrite app_nil_r; reflexivity].
  destruct (existsb _ _); [|exists []; rewrite app_nil_r; reflexivity].
  eexists. symmetry. apply firstn_skipn.
Qed.

(** X17.  The acronym is always a prefix of the file name and never
    contains an underscore. *)
Theorem acronym_is_underscore_free_prefix (filename : str) :
  chr_in 95%N (extract_module_acronym filename) = false
  /\ exists tail, filename = extract_module_acronym filename ++ tail.
Proof.
  unfold extract_module_acronym. cbv zeta.
  destruct (split_on_cons 95%N (splitext_root filename)) as (first & rest & E).
  rewrite E. destruct (split_on_first _ _ _ _ E) as (Hfree & tail & Htail).
  split; [exact Hfree|].
  destruct (splitext_root_prefix filename) as (ext & Hext).
  exists (tail ++ ext). rewrite app_assoc, <- Htail. exact Hext.
Qed.

Lemma rfind_from_absent (c : char) (s : str) (i last : Z) :
  chr_in c s = false -> rfind_from c s i last = last.
Proof.
  revert i last. induction s as [|d s IH]; intros i last; simpl; [reflexivity|].
  unfold chr_eqb at 1. rewrite N.eqb_sym. fold (chr_eqb d c).
  destruct (chr_eqb d c); simpl; [discriminate|]. apply IH.
Qed.

Lemma rfind_from_app (c : char) (a b : str) (i last : Z) :
  rfind_from c (a ++ b) i last
  = rfind_from c b (i + Z.of_nat (length a)) (rfind_from c a i last).
Proof.
  revert i last. induction a as [|d a IH]; intros i last; cbn [app rfind_from].
  - f_equal. cbn [length]. lia.
  - rewrite IH. f_equal. cbn [length]. lia.
Qed.

Lemma rfind_from_range (c : char) (s : str) (i last : Z) :
  rfind_from c s i last = last
  \/ (i <= rfind_from c s i last < i + Z.of_nat (length s))%Z.
Proof.
  revert i last. induction s as [|d s IH]; intros i last; cbn [rfind_from].
  - left; reflexivity.
  - assert (Hlen : Z.of_nat (length (d :: s)) = (Z.of_nat (length s) + 1)%Z)
      by (cbn [length]; lia).
    rewrite Hlen.
    destruct (IH (i + 1)%Z (if chr_eqb d c then i else last)) as [E | E].
    + rewrite E. destruct (chr_eqb d c); [right; lia | left; reflexivity].
    + right. lia.
Qed.

(** X18.  For a file name [ACR_rest] in which the part before the first
    underscore has no dot and no slash, and nothing after it has a slash,
    the acronym is exactly that part, whatever extension follows. *)
Theorem acronym_of_conventional_name (acr rest : str) :
  chr_in 95%N acr = false -> chr_in 46%N acr = false -> chr_in 47%N acr = false ->
  chr_in 47%N rest = false ->
  extract_module_acronym (acr ++ 95%N :: rest) = acr.
Proof.
  intros Hus Hdot Hsl Hslr.
  assert (Hsplit : forall tail, split_on 95%N (acr ++ 95%N :: tail)
                                = acr :: split_on 95%N tail)
    by (intros tail; apply split_on_app_sep; exact Hus).
  unfold extract_module_acronym, splitext_root. cbv zeta.
  assert (Hsep : rfind (acr ++ 95%N :: rest) 47%N = (-1)%Z).
  { unfold rfind. apply rfind_from_absent.
    unfold chr_in in *. rewrite existsb_app. rewrite Hsl. simpl. exact Hslr. }
  rewrite Hsep.
  set (dotIndex := rfind (acr ++ 95%N :: rest) 46%N).
  assert (Hrange : dotIndex = (-1)%Z
                   \/ (Z.of_nat (length acr) + 1 <= dotIndex)%Z).
  { unfold dotIndex, rfind.
    change (acr ++ 95%N :: rest) with (acr ++ [95%N] ++ rest).
    rewrite app_assoc, rfind_from_app.
    rewrite (rfind_from_absent 46%N (acr ++ [95%N])).
    2:{ unfold chr_in in *. rewrite existsb_app, Hdot. reflexivity. }
    destruct (rfind_from_range 46%N rest
                (0 + Z.of_nat (length (acr ++ [95%N]))) (-1)) as [E | E].
    - left. exact E.
    - right. rewrite length_app in E |- *. cbn [length] in E |- *.
      set (found := rfind_from _ _ _ _) in *. clearbody found. lia. }
  destruct Hrange as [E | E].
  - rewrite E. change (-1 <? -1)%Z with false. cbv iota. rewrite Hsplit. reflexivity.
  - replace (-1 <? dotIndex)%Z with true by (symmetry; apply Z.ltb_lt; lia).
    change (Z.to_nat (-1 + 1)) with 0. cbn [skipn]. rewrite Nat.sub_0_r.
    assert (Hn : Z.to_nat dotIndex = length acr + S (Z.to_nat dotIndex - length acr - 1))
      by lia.
    rewrite Hn. rewrite firstn_app_2. cbn [firstn].
    rewrite existsb_app. cbn [existsb chr_eqb N.eqb negb]. cbn.
    rewrite orb_true_r. rewrite Hsplit. reflexivity.
Qed.

(* ================================================================== *)
(** * The report: sorting and grouping *)
(* ================================================================== *)

Lemma str_ltb_irrefl (a : str) : str_ltb a a = false.
Proof.
  induction a as [|x a IH]; simpl; [reflexivity|].
  rewrite N.ltb_irrefl, N.eqb_refl, IH. reflexivity.
Qed.

Lemma str_ltb_asym (a b : str) : str_ltb a b = true -> str_ltb b a = false.
Proof.
  revert b. induction a as [|x a IH]; intros [|y b]; simpl; try congruence.
  intros H. apply orb_true_iff in H. apply orb_false_iff.
  destruct H as [H | H].
  - apply N.ltb_lt in H. split; [apply N.ltb_ge; lia|].
    replace (y =? x)%N with false by (symmetry; apply N.eqb_neq; lia). reflexivity.
  - apply andb_true_iff in H. destruct H as [E H]. apply N.eqb_eq in E. subst y.
    rewrite N.ltb_irrefl, N.eqb_refl. simpl. split; [reflexivity | apply IH; exact H].
Qed.

Section SortFacts.
Variable A : Type.
Variable key : A -> str.

(** [x] may stand before [y]: the key of [y] is not smaller. *)
Let ordered (x y : A) : Prop := str_ltb (key y) (key x) = false.

Lemma insert_by_perm (x : A) (l : list A) : Permutation (x :: l) (insert_by key x l).
Proof.
  induction l as [|y l IH]; simpl; [apply Permutation_refl|].
  destruct (str_ltb (key y) (key x)); [|apply Permutation_refl].
  eapply Permutation_trans; [apply perm_swap|]. apply perm_skip. exact IH.
Qed.

Lemma sort_by_perm (l : list A) : Permutation l (sort_by key l).
Proof.
  induction l as [|x l IH]; simpl; [constructor|].
  eapply Permutation_trans; [apply perm_skip; exact IH | apply insert_by_perm].
Qed.

Lemma insert_by_sorted (x : A) (l : list A) :
  Sorted ordered l -> Sorted ordered (insert_by key x l).
Proof.
  induction 1 as [|y l Hl IH Hhd]; simpl; [repeat constructor|].
  destruct (str_ltb (key y) (key x)) eqn:E.
  - constructor; [exact IH|].
    destruct l as [|z l]; simpl.
    + constructor. unfold ordered. apply str_ltb_asym. exact E.
    + destruct (str_ltb (key z) (key x)).
      * constructor. inversion Hhd; assumption.
      * constructor. unfold ordered. apply str_ltb_asym. exact E.
  - constructor; [constructor; assumption|]. constructor. exact E.
Qed.

Lemma sort_by_sorted (l : list A) : Sorted ordered (sort_by key l).
Proof.
  induction l as [|x l IH]; simpl; [constructor | apply insert_by_sorted; exact IH].
Qed.

Lemma insert_by_filter (k : str) (x : A) (l : list A) :
  filter (fun y => str_eqb (key y) k) (insert_by key x l)
  = filter (fun y => str_eqb (key y) k) (x :: l).
Proof.
  induction l as [|y l IH]; [reflexivity|]. cbn [insert_by].
  destruct (str_ltb (key y) (key x)) eqn:E; [|reflexivity].
  cbn [filter] in *. rewrite IH.
  destruct (str_eqb (key x) k) eqn:Ex; [|reflexivity].
  destruct (str_eqb (key y) k) eqn:Ey; [|reflexivity].
  apply str_eqb_eq in Ex, Ey. rewrite Ex, Ey, str_ltb_irrefl in E. discriminate.
Qed.

Lemma sort_by_stable (k : str) (l : list A) :
  filter (fun y => str_eqb (key y) k) (sort_by key l)
  = filter (fun y => str_eqb (key y) k) l.
Proof.
  induction l as [|x l IH]; [reflexivity|].
  cbn [sort_by fold_right]. fold (sort_by key l).
  rewrite insert_by_filter. cbn [filter]. rewrite IH. reflexivity.
Qed.

End SortFacts.

(** X19.  The vocabulary entries of the report are all the extracted
    items, none lost or added, in ascending order of the lower-cased
    term; items whose lower-cased terms are equal keep the order in which
    they were extracted. *)
Theorem vocabulary_is_sorted_by_lowercase_term {db : CharDB}
        (all_vocab : list (VocabularyItem * str)) :
  Permutation all_vocab (sorted_vocabulary all_vocab)
  /\ Sorted (fun x y => str_ltb (str_lower (fst (fst y))) (str_lower (fst (fst x)))
                        = false)
            (sorted_vocabulary all_vocab)
  /\ forall k,
       filter (fun x => str_eqb (str_lower (fst (fst x))) k) (sorted_vocabulary all_vocab)
       = filter (fun x => str_eqb (str_lower (fst (fst x))) k) all_vocab.
Proof.
  unfold sorted_vocabulary. split; [apply sort_by_perm|].
  split; [apply sort_by_sorted|]. intros k. apply sort_by_stable.
Qed.

Lemma dict_append_last (d : list (str * list str)) (key item : str) (v : list str) :
  ~ In key (map fst d) ->
  dict_append (d ++ [(key, v)]) key item = d ++ [(key, v ++ [item])].
Proof.
  induction d as [|[k0 v0] d IH]; simpl; intros H.
  - rewrite str_eqb_refl. reflexivity.
  - destruct (str_eqb k0 key) eqn:E.
    + apply str_eqb_eq in E. exfalso. apply H. left. exact E.
    + rewrite IH; [reflexivity|]. intros Hin. apply H. right. exact Hin.
Qed.

Lemma dict_append_fresh (d : list (str * list str)) (key item : str) :
  ~ In key (map fst d) -> dict_append d key item = d ++ [(key, [item])].
Proof.
  induction d as [|[k0 v0] d IH]; simpl; intros H; [reflexivity|].
  destruct (str_eqb k0 key) eqn:E.
  - apply str_eqb_eq in E. exfalso. apply H. left. exact E.
  - rewrite IH; [reflexivity|]. intros Hin. apply H. right. exact Hin.
Qed.

Lemma group_one_session (d : list (str * list str)) (name : str)
      (v items : list str) :
  ~ In name (map fst d) ->
  fold_left (fun d '(item, source_file) => dict_append d source_file item)
            (map (fun x => (x, name)) items) (d ++ [(name, v)])
  = d ++ [(name, v ++ items)].
Proof.
  intros H. revert v. induction items as [|x items IH]; intros v; cbn [map fold_left].
  - rewrite app_nil_r. reflexivity.
  - rewrite dict_append_last by exact H. rewrite IH, <- app_assoc. reflexivity.
Qed.

Lemma group_sessions (field : DeckRecord -> list str)
      (all_content : list (str * DeckRecord)) (d : list (str * list str)) :
  NoDup (map fst d ++ map fst all_content) ->
  fold_left (fun d '(item, source_file) => dict_append d source_file item)
            (with_source field all_content) d
  = d ++ flat_map (fun '(name, rec) =>
                     if nonempty (field rec) then [(name, field rec)] else [])
                  all_content.
Proof.
  unfold with_source. revert d.
  induction all_content as [|[name rec] all_content IH]; intros d Hnd;
    cbn [flat_map map fst] in *.
  - rewrite app_nil_r. reflexivity.
  - rewrite fold_left_app.
    assert (Hfresh : ~ In name (map fst d)).
    { apply NoDup_remove_2 in Hnd. intros Hin. apply Hnd. apply in_or_app. left. exact Hin. }
    destruct (field rec) as [|x items] eqn:Ef; cbn [map fold_left nonempty app].
    + apply IH. apply NoDup_remove_1 in Hnd. exact Hnd.
    + rewrite dict_append_fresh by exact Hfresh.
      rewrite group_one_session by exact Hfresh. cbn [app].
      rewrite IH.
      * rewrite <- app_assoc. reflexivity.
      * rewrite map_app. cbn [map fst]. rewrite <- app_assoc. exact Hnd.
Qed.

(** X20.  Grouping the flattened (item, file) pairs by file gives each
    deck its own list back: for decks with distinct names the groups are,
    in order, the decks whose list is non-empty, each with exactly that
    list.  This holds for goals, assessments, careers and materials. *)
Theorem grouping_restores_each_decks_list (field : DeckRecord -> list str)
        (all_content : list (str * DeckRecord)) :
  NoDup (map fst all_content) ->
  group_by_session (with_source field all_content)
  = flat_map (fun '(name, rec) =>
                if nonempty (field rec) then [(name, field rec)] else [])
             all_content.
Proof.
  intros Hnd. unfold group_by_session.
  apply (group_sessions field all_content []). exact Hnd.
Qed.

(* ================================================================== *)
(** * The report: which sections it has *)
(* ================================================================== *)

Lemma numbered_no_heading (t : str) (level : nat) (c : bool) (i : nat)
      (items : list str) :
  ~ In (Heading t level c) (numbered i items).
Proof.
  revert i. induction items as [|x items IH]; intros i; simpl; [tauto|].
  intros [H | H]; [discriminate | exact (IH _ H)].
Qed.

Lemma session_section_headings (title : str) (pairs : list (str * str))
      (t : str) (c : bool) :
  In (Heading t 1 c) (session_section title pairs)
  <-> t = title /\ c = false /\ pairs <> [].
Proof.
  unfold session_section. destruct pairs as [|pr pairs]; cbn [nonempty].
  - split; [intros [] | intros (_ & _ & H); contradiction].
  - cbv zeta. split.
    + intros [H | [H | H]]; [discriminate | | ].
      * inversion H; subst. repeat split. discriminate.
      * exfalso. apply in_flat_map in H. destruct H as (filename & _ & H).
        destruct H as [H | H]; [discriminate|].
        apply in_app_or in H. destruct H as [H | [H | []]];
          [exact (numbered_no_heading _ _ _ _ _ H) | discriminate].
    + intros (-> & -> & _). right. left. reflexivity.
Qed.

Lemma vocabulary_entries_level {db : CharDB} (t : str) (c : bool) (i total : nat)
      (entries : list (VocabularyItem * str)) :
  ~ In (Heading t 1 c) (vocabulary_entries i total entries).
Proof.
  revert i. induction entries as [|[[word definition] source_file] entries IH];
    intros i; cbn [vocabulary_entries]; [intros []|].
  intros [H | [H | [H | H]]]; try discriminate.
  apply in_app_or in H. destruct H as [H | H]; [|exact (IH _ H)].
  destruct (i <? total); [destruct H as [H | []]; discriminate | destruct H].
Qed.

Lemma vocabulary_section_headings {db : CharDB}
      (all_vocab : list (VocabularyItem * str)) (t : str) (c : bool) :
  In (Heading t 1 c) (vocabulary_section all_vocab)
  <-> t = py "1. Vocabulary Terms" /\ c = false /\ all_vocab <> [].
Proof.
  unfold vocabulary_section. destruct all_vocab as [|x all_vocab]; cbn [nonempty].
  - split; [intros [] | intros (_ & _ & H); contradiction].
  - split.
    + intros [H | H].
      * inversion H; subst. repeat split. discriminate.
      * exfalso. exact (vocabulary_entries_level _ _ _ _ _ H).
    + intros (-> & -> & _). left. reflexivity.
Qed.

Lemma with_source_nonempty {A : Type} (field : DeckRecord -> list A)
      (all_content : list (str * DeckRecord)) :
  with_source field all_content <> []
  <-> exists name rec, In (name, rec) all_content /\ field rec <> [].
Proof.
  unfold with_source. induction all_content as [|[name rec] all_content IH];
    cbn [flat_map].
  - split; [intros H; contradiction | intros (? & ? & [] & _)].
  - split.
    + intros H. destruct (field rec) as [|x xs] eqn:E.
      * cbn [map app] in H. apply IH in H. destruct H as (n & r & Hin & Hr).
        exists n, r. split; [right; exact Hin | exact Hr].
      * exists name, rec. split; [left; reflexivity | rewrite E; discriminate].
    + intros (n & r & [Hin | Hin] & Hr).
      * inversion Hin; subst. destruct (field r); [contradiction | discriminate].
      * intros H. apply app_eq_nil in H. destruct H as [_ H].
        revert H. apply IH. exists n, r. auto.
Qed.

(** X21.  The level-1 headings of the report are exactly the titles of
    the categories for which some deck has an item, in addition to "QA
    Tickets" and "Notes", which are always there; none of them is
    centred. *)
Theorem report_has_a_section_per_nonempty_category {db : CharDB}
        (all_content : list (str * DeckRecord)) (output_path module_acronym : str)
        (t : str) (c : bool) :
  In (Heading t 1 c) (snd (create_word_document all_content output_path module_acronym))
  <-> c = false
      /\ (t = py "1. Vocabulary Terms"
            /\ (exists name rec, In (name, rec) all_content /\ vocabulary rec <> [])
          \/ t = py "2. Session Goals"
            /\ (exists name rec, In (name, rec) all_content /\ goals rec <> [])
          \/ t = py "3. Assessment Items"
            /\ (exists name rec, In (name, rec) all_content /\ assessments rec <> [])
          \/ t = py "4. Related Careers"
            /\ (exists name rec, In (name, rec) all_content /\ careers rec <> [])
          \/ t = py "5. Session Materials"
            /\ (exists name rec, In (name, rec) all_content /\ materials rec <> [])
          \/ t = py "QA Tickets" \/ t = py "Notes").
Proof.
  unfold create_word_document. cbv zeta. cbn [snd].
  rewrite !in_app_iff, vocabulary_section_headings, !session_section_headings,
    !with_source_nonempty.
  split.
  - intros [H | [H | [H | [H | [H | [H | [H | [H | [H | H]]]]]]]]].
    + repeat (destruct H as [H | H]; [discriminate|]). destruct H.
    + destruct H as (-> & -> & H). auto.
    + destruct H as (-> & -> & H). auto.
    + destruct H as (-> & -> & H). auto 6.
    + destruct H as (-> & -> & H). auto 7.
    + destruct H as (-> & -> & H). auto 8.
    + destruct H as [H | [H | []]]; [discriminate|]. inversion H; subst. auto 9.
    + apply repeat_spec in H. discriminate.
    + destruct H as [H | []]. inversion H; subst. auto 10.
    + apply repeat_spec in H. discriminate.
  - intros (-> & [(-> & H) | [(-> & H) | [(-> & H) | [(-> & H) | [(-> & H) | [-> | ->]]]]]]).
    + right. left. auto.
    + right. right. left. auto.
    + right. right. right. left. auto.
    + do 4 right. left. auto.
    + do 5 right. left. auto.
    + do 6 right. left. right. left. reflexivity.
    + do 8 right. left. left. reflexivity.
Qed.

(* ================================================================== *)
(** * [run] and [main] *)
(* ================================================================== *)

Section RunFacts.
Context {db : CharDB}.

Lemma process_all_empty_listing (fs : filesystem) :
  process_all_ppt_files fs [] = Ok [].
Proof. reflexivity. Qed.

(** What [run] does once the directory is known, by cases on the
    driver's result. *)
Lemma extractor_run_cases (fs : filesystem) (env : environment)
      (directory output_filename : option str) (dir : str) :
  match directory with Some d => Ok d | None => getcwd env end = Ok dir ->
  exists all_content,
    process_all_ppt_files fs (glob_pptx env dir) = Ok all_content
    /\ (all_content = [] ->
        extractor_run fs env directory output_filename = Ok None)
    /\ (all_content <> [] ->
        exists first rest,
          glob_pptx env dir = first :: rest
          /\ extractor_run fs env directory output_filename
             = (report <- write_report env
                            (create_word_document all_content
                               (path_join dir
                                  (match output_filename with
                                   | Some name => name
                                   | None => default_output_filename
                                               (extract_module_acronym (path_name first))
                                   end))
                               (extract_module_acronym (path_name first))) ;;
                Ok (Some report))).
Proof.
  intros Hdir. unfold extractor_run. rewrite Hdir. cbn [bind].
  destruct (glob_pptx env dir) as [|first rest] eqn:Eg.
  - exists []. rewrite process_all_empty_listing. cbn [bind nonempty negb].
    split; [reflexivity|]. split; [reflexivity | intros H; contradiction].
  - assert (Hret : exists all_content,
               process_all_ppt_files fs (first :: rest) = Ok all_content).
    { unfold process_all_ppt_files. cbn [nonempty negb].
      apply foldM_total. intros; apply process_file_returns. }
    destruct Hret as (all_content & Hall). exists all_content. rewrite Hall.
    cbn [bind]. split; [reflexivity|].
    destruct all_content as [|x all_content]; cbn [nonempty negb].
    + split; [reflexivity | intros H; contradiction].
    + split; [discriminate|]. intros _. exists first, rest. split; reflexivity.
Qed.


(** X23.  On the command line [--acronym] only names the output file: when
    it is given and [main] returns a written document, [--output] was
    ignored and the report was saved as
    "<given acronym>_Doc Updates & Tickets.docx" in the directory, while
    the title of the report still carries the acronym taken from the
    first listed file name. *)
Theorem acronym_option_only_names_the_file (fs : filesystem) (env : environment)
        (args : arguments) (acronym path : str) (doc : list block) :
  arg_acronym args = Some acronym -> acronym <> [] ->
  main fs env args = Ok (Some (path, doc)) ->
  exists dir,
    (if truthy (arg_directory args)
     then match arg_directory args with Some d => Ok d | None => getcwd env end
     else getcwd env) = Ok dir
    /\ path = path_join dir (acronym ++ py "_Doc Updates & Tickets.docx")
    /\ save_document env path doc = Ok tt
    /\ exists first rest,
         glob_pptx env dir = first :: rest
         /\ hd PageBreak doc
            = Heading (extract_module_acronym (path_name first)
                         ++ py " - Documentation Updates & Tickets") 0 true.
Proof.
  intros Ha Hne Hmain. unfold main in Hmain.
  destruct (if truthy (arg_directory args)
            then match arg_directory args with Some d => Ok d | None => getcwd env end
            else getcwd env) as [dir|e]; cbn [bind] in Hmain; [|discriminate].
  exists dir. split; [reflexivity|].
  cbv zeta in Hmain. rewrite Ha in Hmain.
  assert (Hn : nonempty acronym = true) by (destruct acronym; [contradiction | reflexivity]).
  rewrite Hn in Hmain.
  destruct (extractor_run_cases fs env (Some dir)
              (Some (default_output_filename acronym)) dir eq_refl)
    as (all_content & _ & Hnone & Hsome).
  destruct all_content as [|x all_content].
  - rewrite (Hnone eq_refl) in Hmain. discriminate.
  - destruct (Hsome ltac:(discriminate)) as (first & rest & Hg & Hrun).
    rewrite Hrun in Hmain. unfold write_report, create_word_document in Hmain.
    cbv zeta in Hmain. cbn [fst snd] in Hmain.
    destruct (new_document env); cbn [bind] in Hmain; [|discriminate].
    destruct (save_document env _ _) as [[]|] eqn:Es; cbn [bind] in Hmain;
      [|discriminate].
    inversion Hmain; subst path doc.
    split; [reflexivity|]. split; [exact Es|].
    exists first, rest. split; [exact Hg | reflexivity].
Qed.

End RunFacts.

(* ================================================================== *)
(** * The further theorems at sample inputs *)
(* ================================================================== *)

Lemma navy_is_not_blue : is_blue_color (RGBColor 0 0 120) = Ok false.
Proof. apply low_blue_channel_is_never_blue. lia. Defined.

Lemma royal_blue_is_blue : is_blue_color (RGBColor 65 105 170) = Ok true.
Proof. apply dominant_blue_is_blue; lia. Defined.

Lemma slot_13_is_none :
  resolve_theme_color_to_rgb (deck_of []) 13 0 = RgbNone.
Proof. apply theme_lookup_failure_gives_none. right. lia. Defined.

Lemma unformatted_run_is_not_emphasis :
  get_effective_color unformatted_run (plain_paragraph "water") (deck_of []) = RgbNone
  /\ is_blue_color
       (get_effective_color unformatted_run (plain_paragraph "water") (deck_of []))
     = Ok false.
Proof.
  apply (unresolved_colour_is_not_emphasis unformatted_run (plain_paragraph "water")
           (deck_of []) AttributeError eq_refl);
    intros x y z H; discriminate H.
Defined.

Lemma two_letters_are_excluded : should_exclude_vocab (py " pH ") = true.
Proof. apply short_text_is_excluded. vm_compute. lia. Defined.

Lemma osmosis_term_is_a_bold_run :
  exists sh tf p r,
    In sh [ {| shape_text_frame :=
                 Some {| tf_paragraphs := [osmosis_paragraph 0 112 192] |} |} ]
    /\ shape_text_frame sh = Some tf
    /\ In p (tf_paragraphs tf) /\ In r (para_runs p)
    /\ py "Osmosis" = strip (run_text r) /\ run_bold r = Some true
    /\ should_exclude_vocab (py "Osmosis") = false
    /\ 3 < length (py "the movement of water.").
Proof.
  apply (vocabulary_terms_are_bold_runs
           {| slide_shapes :=
                [ {| shape_text_frame :=
                       Some {| tf_paragraphs := [osmosis_paragraph 0 112 192] |} |} ] |}
           (deck_of []) [(py "Osmosis", py "the movement of water.")]).
  - vm_compute. reflexivity.
  - left. reflexivity.
Defined.

Lemma osmosis_run_is_the_term : py "Osmosis" = strip (py "Osmosis").
Proof.
  apply (first_emphasis_run_is_the_term (deck_of []) []
           [(py "Osmosis", py "the movement of water.")]
           (osmosis_paragraph 0 112 192) []
           {| run_text := py "Osmosis"; run_bold := Some true;
              run_color := ExplicitRGB 0 112 192 |}
           [ {| run_text := py ": the movement of water."; run_bold := None;
                run_color := NoColor |} ])
    with (definition := py "the movement of water.").
  - reflexivity.
  - constructor.
  - vm_compute. discriminate.
  - vm_compute. reflexivity.
  - reflexivity.
  - vm_compute. reflexivity.
  - vm_compute. reflexivity.
  - left. reflexivity.
Defined.

Lemma goal_item_is_trimmed :
  py "Identify rock types" <> [] /\ strip (py "Identify rock types") = py "Identify rock types".
Proof.
  apply (extracted_items_are_trimmed_and_nonempty goal_slide).
  left. vm_compute. left. reflexivity.
Defined.

Lemma title_slide_has_no_goals :
  extract_session_goals (text_slide ["Rocks and Minerals"]%string) = [].
Proof.
  apply (proj1 (no_trigger_no_items (text_slide ["Rocks and Minerals"]%string))).
  vm_compute. reflexivity.
Defined.

Lemma careers_frame_single_pass :
  careers_shape [] {| shape_text_frame := Some careers_frame |}
  = (if any_search career_trigger_patterns (tf_text careers_frame)
     then fst (fold_left careers_line
                 (map (fun p => strip (para_text p)) (tf_paragraphs careers_frame))
                 ([], false))
     else []).
Proof.
  apply (proj1 (paragraph_fallback_adds_nothing []
                  {| shape_text_frame := Some careers_frame |} careers_frame eq_refl
                  ltac:(repeat constructor))).
Defined.

(** A deck showing the same vocabulary term and the same material on two
    slides keeps both occurrences of each. *)
Lemma concatenation_example :
  exists rec,
    extract_all_content_from_ppt lab_decks (py "in/LABS_1.pptx") = Ok rec
    /\ vocabulary rec = [ (py "Osmosis", py "the movement of water.");
                          (py "Osmosis", py "the movement of water.") ]
    /\ materials rec = [py "2 safety goggles"; py "2 safety goggles"].
Proof.
  destruct (vocabulary_and_materials_are_concatenated lab_decks (py "in/LABS_1.pptx")
              (deck_of [lab_slide; lab_slide]) [lab_slide; lab_slide] eq_refl eq_refl)
    as (rec & per_slide & H & Hall & Hv & Hm).
  exists rec. split; [exact H|]. split.
  - rewrite Hv.
    inversion Hall as [|s1 v1 ss1 vs1 H1 Hall1]; subst.
    inversion Hall1 as [|s2 v2 ss2 vs2 H2 Hall2]; subst.
    inversion Hall2; subst.
    vm_compute in H1. injection H1 as <-.
    vm_compute in H2. injection H2 as <-.
    reflexivity.
  - rewrite Hm. vm_compute. reflexivity.
Defined.

Lemma first_slide_goals_example :
  exists rec more,
    extract_all_content_from_ppt two_decks (py "in/GEOL_1.pptx") = Ok rec
    /\ goals rec = extract_session_goals goal_slide ++ more.
Proof.
  exact (first_slide_goals_come_first two_decks (py "in/GEOL_1.pptx")
           (deck_of [goal_slide; goal_slide]) goal_slide [goal_slide] eq_refl eq_refl).
Defined.

Lemma two_decks_keys_distinct :
  NoDup (map fst (match process_all_ppt_files two_decks [GEOL_1; GEOL_2] with
                  | Ok all_content => all_content
                  | Raise _ => []
                  end)).
Proof.
  destruct (process_all_ppt_files two_decks [GEOL_1; GEOL_2]) as [all_content|e] eqn:E.
  - exact (proj1 (reported_records_come_from_listed_files two_decks
                    [GEOL_1; GEOL_2] all_content E)).
  - constructor.
Defined.

Lemma two_decks_names_distinct : NoDup (map path_name [GEOL_1; GEOL_2]).
Proof.
  repeat constructor; simpl; intros H;
    repeat (destruct H as [H | H]; [vm_compute in H; discriminate H|]); exact H.
Defined.

Lemma two_decks_in_order :
  process_all_ppt_files two_decks [GEOL_1; GEOL_2]
  = Ok (flat_map
          (fun f =>
             match extract_all_content_from_ppt two_decks (path_str f) with
             | Ok rec => if any_content rec then [(path_name f, rec)] else []
             | Raise _ => []
             end) [GEOL_1; GEOL_2]).
Proof.
  exact (decks_are_reported_in_listing_order two_decks [GEOL_1; GEOL_2]
           two_decks_names_distinct).
Defined.

Lemma mats_acronym :
  extract_module_acronym (py "MATS" ++ 95%N :: py "Session1.pptx") = py "MATS".
Proof.
  exact (acronym_of_conventional_name (py "MATS") (py "Session1.pptx")
           eq_refl eq_refl eq_refl eq_refl).
Defined.

(** Two decks with goals: each gets its own list back under its name. *)
Lemma grouping_example :
  group_by_session
    (with_source goals [ (py "GEOL_1.pptx", GEOL_1_record);
                         (py "GEOL_2.pptx", GEOL_2_record) ])
  = [ (py "GEOL_1.pptx", [py "Explain erosion"; py "Identify rock types"]);
      (py "GEOL_2.pptx", [py "Identify rock types"]) ].
Proof.
  rewrite (grouping_restores_each_decks_list goals
             [ (py "GEOL_1.pptx", GEOL_1_record); (py "GEOL_2.pptx", GEOL_2_record) ]).
  - vm_compute. reflexivity.
  - repeat constructor; simpl; intros H;
      repeat (destruct H as [H | H]; [vm_compute in H; discriminate H|]); exact H.
Defined.

Lemma empty_report_has_notes :
  In (Heading (py "Notes") 1 false)
     (snd (create_word_document [] (py "out.docx") (py "MATS"))).
Proof.
  apply (proj2 (report_has_a_section_per_nonempty_category [] (py "out.docx")
                  (py "MATS") (py "Notes") false)).
  split; [reflexivity|]. do 6 right. reflexivity.
Defined.


Lemma sample_main :
  exists path doc,
    main two_decks sample_env sample_args = Ok (Some (path, doc))
    /\ path = py "in/ROCK_Doc Updates & Tickets.docx"
    /\ hd PageBreak doc
       = Heading (py "GEOL - Documentation Updates & Tickets") 0 true.
Proof.
  assert (E : exists path doc,
             main two_decks sample_env sample_args = Ok (Some (path, doc)))
    by (vm_compute; eexists; eexists; reflexivity).
  destruct E as (path & doc & E). exists path, doc. split; [exact E|].
  destruct (acronym_option_only_names_the_file two_decks sample_env sample_args
              (py "ROCK") path doc eq_refl ltac:(discriminate) E)
    as (dir & Hdir & Hpath & _ & first & rest & Hg & Hd).
  vm_compute in Hdir. injection Hdir as <-.
  split; [rewrite Hpath; vm_compute; reflexivity|].
  rewrite Hd. vm_compute in Hg. inversion Hg; subst first rest.
  vm_compute. reflexivity.
Defined.

Lemma mid_gray_is_not_blue : is_blue_color (RGBColor 128 128 128) = Ok false.
Proof.
  apply exclusions_outside_ranges; [vm_compute; reflexivity|]. right. lia.
Defined.


